(** * The real-time chat engine of backend/src/server.js

    A shallow embedding of the Socket.io part of the server (the
    [connectedUsers] map and the handlers registered in
    [io.on("connection", ...)]), of the two Mongoose schemas it uses, of the
    routes behind [authenticateToken], and of the client's send routine and
    message list (src/unnamed/part_000, frontend/src/pages/Chat.jsx).

    Modelling choices.
    - [step] takes one handler from its start to its end: it is what happens
      when no other handler runs at one of its [await]s. For what happens
      when one does, the "authenticate" handler is also given from two of
      its awaits on ([resume_authenticate], [finish_authenticate]).
    - Texts are held as their UTF-8 bytes, as the literals of this file are.
    - The outcome of each call into an external collaborator is an input of
      the step: [jwt_verify] is a parameter of the development, and the
      record [Env] says what [Date.now] returned, which [_id] the store
      assigned and which store call failed.
    - Socket.io's [io.emit] reaches every socket of the namespace,
      [socket.broadcast.emit] every socket but the sender, and a socket has
      left the namespace when its "disconnect" listener runs.
    - Handlers leave a [Trace] of their effects in program order, next to
      the state they return. *)

From stdpp Require Import base option list gmap strings sorting pretty.
From Stdlib Require Import ZArith Lia Ascii.

Open Scope string_scope.
Open Scope list_scope.
Open Scope Z_scope.

Set Warnings "-clear-no-such-hyp".

(** ** Documents of the two collections *)

(** [userSchema]. The collection is keyed by [_id], the ObjectId in its
    hexadecimal form, which is therefore not a field here. *)
Record User := mkUser {
  u_nickname : string;
  u_email : option string;
  u_password : string;
  u_createdAt : Z;
  u_lastSeen : Z
}.

(** [messageSchema]; [timestamp] is in milliseconds, as [Date.now()]. *)
Record Message := mkMessage {
  m_id : string;
  m_userId : string;
  m_nickname : string;
  m_text : string;
  m_timestamp : Z
}.

#[global] Instance Message_eq_dec : EqDecision Message.
Proof. solve_decision. Defined.

(** The decoded payload of a token: [{ id, nickname }] as signed by
    /api/login and /api/register. *)
Record Claims := mkClaims {
  c_id : string;
  c_nickname : string
}.

(** ** The wire protocol, server to client *)

Inductive ServerEvent :=
| authenticated (nickname : string)
| auth_error (msg : string)
| message_history (messages : list Message)
| new_message (m : Message)
| user_typing (nickname : string)
| user_joined (nickname : string)
| user_left (nickname : string)
| error (msg : string).

#[global] Instance ServerEvent_eq_dec : EqDecision ServerEvent.
Proof. solve_decision. Defined.

(** The argument of "send_message": [md_nullish] is [undefined] or [null],
    on which [messageData.text] throws; [md_object t] is an object whose
    [text] property is [t], [None] when the property is missing. *)
Inductive MessageData :=
| md_nullish
| md_object (text : option string).

(** ** State *)

(** The fields the handlers add to a socket object. *)
Record Socket := mkSocket {
  userId : option string;
  nickname : option string
}.

Record Server := mkServer {
  Users : gmap string User;            (* the User collection, by _id *)
  Messages : list Message;             (* the Message collection, in insertion order *)
  sockets : gmap string Socket;        (* the sockets of the namespace, by socket.id *)
  connectedUsers : gmap string string  (* socketId -> userId *)
}.

Definition initial : Server := mkServer ∅ [] ∅ ∅.

(** What the outside world answers during one handler run. *)
Record Env := mkEnv {
  now : Z;                 (* Date.now() / new Date() *)
  fresh_id : string;       (* the _id given to a new Message *)
  db_find_user : bool;     (* User.findById resolves *)
  db_save_user : bool;     (* user.save() resolves *)
  db_find_messages : bool; (* Message.find()...lean() resolves *)
  db_save_message : bool   (* the store accepts the insert of message.save() *)
}.

(** ** Effects, in program order *)

Inductive Effect :=
| Emit (to : gset string) (ev : ServerEvent)   (* packets put on the wire *)
| RegistrySet (sid uid : string)               (* connectedUsers.set *)
| RegistryDelete (sid : string)                (* connectedUsers.delete *)
| UserSaved (uid : string) (lastSeen : Z)      (* user.save() acknowledged *)
| MessageSaved (m : Message)                   (* message.save() acknowledged *)
| Closed (sid : string).                       (* socket.disconnect() *)

Definition Trace := list Effect.

(** ** A state, trace and exception monad for the handlers

    A handler body either completes or throws; the mutations it made and
    the effects it caused before throwing stay. *)

Inductive Outcome (A : Type) :=
| Ok (a : A)
| Thrown.
Arguments Ok {A} a.
Arguments Thrown {A}.

Definition M (A : Type) : Type := Server → Outcome A * Server * Trace.

Definition ret {A} (a : A) : M A := λ s, (Ok a, s, []).

Definition bind {A B} (m : M A) (f : A → M B) : M B := λ s,
  match m s with
  | (Ok a, s1, t1) => let '(r, s2, t2) := f a s1 in (r, s2, t1 ++ t2)
  | (Thrown, s1, t1) => (Thrown, s1, t1)
  end.

Definition throw {A} : M A := λ s, (Thrown, s, []).

(** [try { body } catch (error) { handler }] *)
Definition try_catch {A} (body handler : M A) : M A := λ s,
  match body s with
  | (Ok a, s1, t1) => (Ok a, s1, t1)
  | (Thrown, s1, t1) => let '(r, s2, t2) := handler s1 in (r, s2, t1 ++ t2)
  end.

Definition gets {A} (f : Server → A) : M A := λ s, (Ok (f s), s, []).
Definition modify (f : Server → Server) : M unit := λ s, (Ok tt, f s, []).
Definition tell (t : Trace) : M unit := λ s, (Ok tt, s, t).

Declare Scope handler_scope.
Delimit Scope handler_scope with handler.
Notation "x <- m ; k" := (bind m (λ x, k))
  (at level 100, m at next level, k at level 200, right associativity,
   format "'[v' x  <-  m ;  '/' k ']'") : handler_scope.
Notation "m ;; k" := (bind m (λ _, k))
  (at level 100, k at level 200, right associativity,
   format "'[v' m  ;;  '/' k ']'") : handler_scope.
Open Scope handler_scope.

(** State updates of one field. *)
Definition with_Users (f : gmap string User → gmap string User) (s : Server) : Server :=
  mkServer (f (Users s)) (Messages s) (sockets s) (connectedUsers s).
Definition with_Messages (f : list Message → list Message) (s : Server) : Server :=
  mkServer (Users s) (f (Messages s)) (sockets s) (connectedUsers s).
Definition with_sockets (f : gmap string Socket → gmap string Socket) (s : Server) : Server :=
  mkServer (Users s) (Messages s) (f (sockets s)) (connectedUsers s).
Definition with_connectedUsers (f : gmap string string → gmap string string) (s : Server) : Server :=
  mkServer (Users s) (Messages s) (sockets s) (f (connectedUsers s)).

(** ** Socket.io primitives *)

(** [socket.emit(ev)] *)
Definition socket_emit (sid : string) (ev : ServerEvent) : M unit :=
  tell [Emit {[sid]} ev].

(** [io.emit(ev)]: every socket of the namespace. *)
Definition io_emit (ev : ServerEvent) : M unit :=
  all <- gets (λ s, dom (sockets s));
  tell [Emit all ev].

(** [socket.broadcast.emit(ev)]: every socket of the namespace but this one. *)
Definition socket_broadcast_emit (sid : string) (ev : ServerEvent) : M unit :=
  all <- gets (λ s, dom (sockets s));
  tell [Emit (all ∖ {[sid]}) ev].

(** The socket object of a connection; a connection that was never opened
    has no fields. *)
Definition unauthenticated : Socket := mkSocket None None.

Definition this (sid : string) : M Socket :=
  gets (λ s, default unauthenticated (sockets s !! sid)).

(** [socket.userId = uid; socket.nickname = nick] *)
Definition set_identity (sid uid nick : string) : M unit :=
  modify (with_sockets (<[sid := mkSocket (Some uid) (Some nick)]>)).

(** [connectedUsers.set(socket.id, uid)]: [Map.prototype.set] overwrites. *)
Definition connectedUsers_set (sid uid : string) : M unit :=
  modify (with_connectedUsers (<[sid := uid]>));;
  tell [RegistrySet sid uid].

(** [connectedUsers.delete(socket.id)] *)
Definition connectedUsers_delete (sid : string) : M unit :=
  modify (with_connectedUsers (delete sid));;
  tell [RegistryDelete sid].

(** [socket.userId] as a condition. An ObjectId prints as 24 hexadecimal
    digits, so a field that was assigned is truthy. *)
Definition truthy (o : option string) : bool :=
  match o with Some _ => true | None => false end.

(** [socket.nickname] as an event payload. It is assigned together with
    [socket.userId]. *)
Definition nick (sock : Socket) : string := default "" (nickname sock).

(** The "disconnect" listener. *)
Definition on_disconnect (sid : string) (sock : Socket) : M unit :=
  if truthy (userId sock) then
    io_emit (user_left (nick sock));;
    connectedUsers_delete sid
  else ret tt.

(** The end of a connection, by [socket.disconnect()] or by the transport:
    the socket leaves the namespace and then its "disconnect" listener
    runs. A socket that is not connected is left alone. *)
Definition close (sid : string) : M unit :=
  o <- gets (λ s, sockets s !! sid);
  match o with
  | None => ret tt
  | Some sock =>
      modify (with_sockets (delete sid));;
      tell [Closed sid];;
      on_disconnect sid sock
  end.

(** ** The Durable Store, through Mongoose *)

(** [.sort({ timestamp: -1 })]: by decreasing timestamp. The store promises
    no order among equal timestamps; the sort here is the stable one, which
    leaves them in the insertion order. *)
Fixpoint insert_desc (m : Message) (l : list Message) : list Message :=
  match l with
  | [] => [m]
  | x :: l' =>
      if m_timestamp m <? m_timestamp x then x :: insert_desc m l' else m :: l
  end.

Definition sort_desc (l : list Message) : list Message := foldr insert_desc [] l.

(** [.sort({ timestamp: -1 }).limit(n)] *)
Definition recent (n : nat) (l : list Message) : list Message :=
  take n (sort_desc l).

(** [await Message.find().sort({ timestamp: -1 }).limit(n).lean()] *)
Definition Message_find_recent (e : Env) (n : nat) : M (list Message) :=
  if db_find_messages e then gets (λ s, recent n (Messages s)) else throw.

(** [await User.findById(id)] *)
Definition User_findById (e : Env) (id : string) : M (option User) :=
  if db_find_user e then gets (λ s, Users s !! id) else throw.

(** [user.lastSeen = new Date(); await user.save()] *)
Definition touch (e : Env) (u : User) : User :=
  mkUser (u_nickname u) (u_email u) (u_password u) (u_createdAt u) (now e).

Definition user_save (e : Env) (id : string) (u : User) : M unit :=
  if db_save_user e then
    modify (with_Users (<[id := u]>));;
    tell [UserSaved id (u_lastSeen u)]
  else throw.

(** A Message document before validation: the three paths given to
    [new Message({ userId, nickname, text })] may be undefined; [_id] and
    the [timestamp] default ([Date.now]) are filled in by the constructor. *)
Record MessageDoc := mkMessageDoc {
  d_id : string;
  d_userId : option string;
  d_nickname : option string;
  d_text : option string;
  d_timestamp : Z
}.

Definition new_Message (e : Env) (uid nickname text : option string) : MessageDoc :=
  mkMessageDoc (fresh_id e) uid nickname text (now e).

(** [required: true] on a String path: the value is there and is not the
    empty string. Nothing in [messageSchema] trims it. *)
Definition required (o : option string) : option string :=
  match o with
  | Some s => if decide (s = "") then None else Some s
  | None => None
  end.

(** The validation [save()] runs first, against [messageSchema]. *)
Definition validate (d : MessageDoc) : option Message :=
  uid ← d_userId d;
  nickname ← required (d_nickname d);
  text ← required (d_text d);
  Some (mkMessage (d_id d) uid nickname text (d_timestamp d)).

(** [await message.save()]: throws when validation fails or when the store
    refuses the insert; otherwise the document is appended. *)
Definition message_save (e : Env) (d : MessageDoc) : M Message :=
  match validate d with
  | None => throw
  | Some m =>
      if db_save_message e then
        modify (with_Messages (λ l, l ++ [m]));;
        tell [MessageSaved m];;
        ret m
      else throw
  end.

(** [messageData.text] *)
Definition get_text (messageData : MessageData) : M (option string) :=
  match messageData with
  | md_nullish => throw
  | md_object text => ret text
  end.

(** ** The handlers *)

(** What a client can make happen on the server. *)
Inductive ClientEvent :=
| connection (sid : string)
| authenticate (sid token : string)
| send_message (sid : string) (messageData : MessageData)
| typing (sid : string)
| disconnect (sid : string).

Definition subject (ev : ClientEvent) : string :=
  match ev with
  | connection sid | authenticate sid _ | send_message sid _
  | typing sid | disconnect sid => sid
  end.

Section Handlers.

(** [jwt.verify(token, JWT_SECRET)]: [None] when it throws (malformed,
    badly signed or expired token). *)
Variable jwt_verify : string → option Claims.

Definition verify (token : string) : M Claims :=
  match jwt_verify token with
  | Some decoded => ret decoded
  | None => throw
  end.

(** [socket.on("authenticate", async (token) => ...)]. The user is found
    under [decoded.id], so that [user._id.toString()] is [c_id decoded]. *)
Definition on_authenticate (e : Env) (sid token : string) : M unit :=
  try_catch
    (decoded <- verify token;
     user <- User_findById e (c_id decoded);
     match user with
     | None =>
         socket_emit sid (auth_error "Пользователь не найден");;
         close sid
     | Some user =>
         set_identity sid (c_id decoded) (u_nickname user);;
         connectedUsers_set sid (c_id decoded);;
         user_save e (c_id decoded) (touch e user);;
         messages <- Message_find_recent e 50;
         socket_emit sid (message_history (reverse messages));;
         socket_emit sid (authenticated (u_nickname user));;
         io_emit (user_joined (u_nickname user))
     end)
    (socket_emit sid (auth_error "Недействительный токен");;
     close sid).

(** [socket.on("send_message", async (messageData) => ...)] *)
Definition on_send_message (e : Env) (sid : string) (messageData : MessageData) : M unit :=
  socket <- this sid;
  if negb (truthy (userId socket)) then
    socket_emit sid (error "Не авторизован")
  else
    try_catch
      (text <- get_text messageData;
       message <- message_save e (new_Message e (userId socket) (nickname socket) text);
       io_emit (new_message message))
      (socket_emit sid (error "Ошибка отправки сообщения")).

(** [socket.on("typing", () => ...)] *)
Definition on_typing (sid : string) : M unit :=
  socket <- this sid;
  if truthy (userId socket) then
    socket_broadcast_emit sid (user_typing (nick socket))
  else ret tt.

(** [io.on("connection", (socket) => ...)]: a new socket, with an id of its
    own, joins the namespace. *)
Definition on_connection (sid : string) : M unit :=
  modify (with_sockets (<[sid := unauthenticated]>)).

(** The gateway: a connection event for an id that is not in use, any other
    event for a socket that is connected. *)
Definition dispatch (e : Env) (ev : ClientEvent) : M unit :=
  o <- gets (λ s, sockets s !! subject ev);
  match ev, o with
  | connection sid, None => on_connection sid
  | authenticate sid token, Some _ => on_authenticate e sid token
  | send_message sid messageData, Some _ => on_send_message e sid messageData
  | typing sid, Some _ => on_typing sid
  | disconnect sid, Some _ => close sid
  | _, _ => ret tt
  end.

Definition run {A} (m : M A) (s : Server) : Server * Trace :=
  let '(_, s', t) := m s in (s', t).

Definition step (e : Env) (ev : ClientEvent) (s : Server) : Server * Trace :=
  run (dispatch e ev) s.

(** The state after a sequence of events, each with its environment. *)
Definition after (l : list (Env * ClientEvent)) (s : Server) : Server :=
  foldl (λ s x, (step x.1 x.2 s).1) s l.

(** The states that runs without interleaving lead to: each handler is
    taken to its end before the next event is handled. *)
Inductive reachable : Server → Prop :=
| reachable_initial us ms : reachable (mkServer us ms ∅ ∅)
| reachable_step e ev s : reachable s → reachable (step e ev s).1.

End Handlers.

(** ** What a connection sees *)

(** The events of a trace that were sent to [sid], in order. *)
Definition received (sid : string) (t : Trace) : list ServerEvent :=
  omap (λ x, match x with
             | Emit to ev => if decide (sid ∈ to) then Some ev else None
             | _ => None
             end) t.

(** ** A small world to run the handlers in *)

Module Demo.

Definition alice : User := mkUser "alice" None "$2a$10$hash" 0 0.
Definition bob : User := mkUser "bob" None "$2a$10$hash" 0 0.

Definition users : gmap string User :=
  <["a1" := alice]> (<["b2" := bob]> ∅).

(** Three tokens verify; ["tok-ghost"] names a user that was deleted. *)
Definition jwt (token : string) : option Claims :=
  if decide (token = "tok-alice") then Some (mkClaims "a1" "alice")
  else if decide (token = "tok-bob") then Some (mkClaims "b2" "bob")
  else if decide (token = "tok-ghost") then Some (mkClaims "g9" "ghost")
  else None.

(** The store answers every call; the clock reads [t]. *)
Definition at_ (t : Z) (id : string) : Env := mkEnv t id true true true true.

Definition empty : Server := mkServer users [] ∅ ∅.

Definition say (text : string) : MessageData := md_object (Some text).

(** Two open connections, [s1] authenticated as alice, [s2] not. *)
Definition lobby : Server :=
  after jwt [(at_ 10 "", connection "s1"); (at_ 11 "", connection "s2");
             (at_ 12 "", authenticate "s1" "tok-alice")] empty.

Definition first (t : Z) : Message := mkMessage "m1" "a1" "alice" "first" t.
Definition second (t : Z) : Message := mkMessage "m2" "a1" "alice" "second" t.

(** Alice sent two messages; the clock was set back in between. *)
Definition skewed : Server :=
  after jwt [(at_ 21 "m1", send_message "s1" (say "first"));
             (at_ 20 "m2", send_message "s1" (say "second"))] lobby.

(** Alice sent two messages within one millisecond. *)
Definition burst : Server :=
  after jwt [(at_ 20 "m1", send_message "s1" (say "first"));
             (at_ 20 "m2", send_message "s1" (say "second"))] lobby.

(** Sixty stored messages, one per millisecond, and one open connection. *)
Definition nth_message (i : nat) : Message :=
  mkMessage (pretty i) "a1" "alice" "hello" (Z.of_nat i).

Definition sixty : Server :=
  (step jwt (at_ 100 "") (connection "s1")
     (mkServer users (map nth_message (seq 1 60)) ∅ ∅)).1.

End Demo.

(** ** The client's send routine (src/unnamed/part_000, Chat.jsx) *)

(** The text of a JavaScript string is held here as its UTF-8 bytes.

    [white_space s] is the number of bytes of the white space character or
    line terminator that [s] starts with, and 0 when it starts with none.
    These are the characters that [String.prototype.trim] removes: U+0009
    to U+000D and U+0020 (one byte each), U+00A0 (C2 A0), U+1680
    (E1 9A 80), U+2000 to U+200A, U+2028, U+2029 and U+202F
    (E2 80 80..8A, A8, A9, AF), U+205F (E2 81 9F), U+3000 (E3 80 80) and
    U+FEFF (EF BB BF). *)
Definition white_space (s : string) : nat :=
  (match s with
   | EmptyString => 0
   | String c0 s1 =>
       let b0 := nat_of_ascii c0 in
       if (b0 =? 32) || ((9 <=? b0) && (b0 <=? 13)) then 1
       else
         match s1 with
         | EmptyString => 0
         | String c1 s2 =>
             let b1 := nat_of_ascii c1 in
             if (b0 =? 194) && (b1 =? 160) then 2
             else
               match s2 with
               | EmptyString => 0
               | String c2 _ =>
                   let b2 := nat_of_ascii c2 in
                   if (b0 =? 225) && (b1 =? 154) && (b2 =? 128) then 3
                   else if (b0 =? 226) && (b1 =? 128)
                           && (((128 <=? b2) && (b2 <=? 138))
                               || (b2 =? 168) || (b2 =? 169) || (b2 =? 175))
                   then 3
                   else if (b0 =? 226) && (b1 =? 129) && (b2 =? 159) then 3
                   else if (b0 =? 227) && (b1 =? 128) && (b2 =? 128) then 3
                   else if (b0 =? 239) && (b1 =? 187) && (b2 =? 191) then 3
                   else 0
               end
         end
   end)%nat.

(** [trimStart_from skip s]: [s] without its first [skip] bytes and without
    the white space that follows them. *)
Fixpoint trimStart_from (skip : nat) (s : string) : string :=
  match s with
  | EmptyString => EmptyString
  | String _ s' =>
      match skip with
      | S k => trimStart_from k s'
      | O =>
          match white_space s with
          | O => s
          | S k => trimStart_from k s'
          end
      end
  end.

(** [String.prototype.trimStart] *)
Definition trimStart (s : string) : string := trimStart_from 0 s.

(** [whitespace_only_from skip s]: after its first [skip] bytes, [s] is made
    of white space only. *)
Fixpoint whitespace_only_from (skip : nat) (s : string) : bool :=
  match s with
  | EmptyString => true
  | String _ s' =>
      match skip with
      | S k => whitespace_only_from k s'
      | O =>
          match white_space s with
          | O => false
          | S k => whitespace_only_from k s'
          end
      end
  end.

Definition whitespace_only (s : string) : bool := whitespace_only_from 0 s.

(** [String.prototype.trimEnd]: the text up to the point from which only
    white space follows. *)
Fixpoint trimEnd (s : string) : string :=
  match s with
  | EmptyString => EmptyString
  | String c s' => if whitespace_only s then EmptyString else String c (trimEnd s')
  end.

(** [String.prototype.trim] *)
Definition trim (s : string) : string := trimEnd (trimStart s).

(** [handleSendMessage]: what the form puts on the wire, if anything.
    [has_socket] is [socketRef.current], [connected] the state variable. *)
Definition handleSendMessage (inputMessage : string) (has_socket connected : bool)
  : option MessageData :=
  if bool_decide (trim inputMessage = "") || negb has_socket || negb connected
  then None
  else Some (md_object (Some (trim inputMessage))).

(** ** Summaries used in the statements *)

(** [connectedUsers] has an entry for a socket id exactly when that socket
    is connected and carries a [userId], and the entry is that [userId]. *)
Definition consistent (s : Server) : Prop :=
  ∀ sid, connectedUsers s !! sid = sockets s !! sid ≫= userId.

(** The document that a "send_message" from [socket] gets stored, if any:
    [messageData.text] must not throw, the document must pass validation
    and the store must accept it. *)
Definition accepted (e : Env) (socket : Socket) (messageData : MessageData)
  : option Message :=
  match messageData with
  | md_nullish => None
  | md_object text =>
      m ← validate (new_Message e (userId socket) (nickname socket) text);
      if db_save_message e then Some m else None
  end.

(** [no_later a b]: [a]'s timestamp is not after [b]'s. *)
Definition no_later (a b : Message) : Prop := m_timestamp a ≤ m_timestamp b.
Definition earlier (a b : Message) : Prop := m_timestamp a < m_timestamp b.

(** Effects of a kind, for statements about the order of a trace. *)
Definition emits (p : ServerEvent → bool) (x : Effect) : bool :=
  match x with Emit _ ev => p ev | _ => false end.
Definition deletes (sid : string) (x : Effect) : bool :=
  match x with RegistryDelete k => bool_decide (k = sid) | _ => false end.

Definition sets (sid uid : string) (x : Effect) : bool :=
  match x with
  | RegistrySet k u => bool_decide (k = sid) && bool_decide (u = uid)
  | _ => false
  end.

(** The four events the server sends with [socket.emit]. *)
Definition is_reply (ev : ServerEvent) : bool :=
  match ev with
  | error _ | auth_error _ | message_history _ | authenticated _ => true
  | _ => false
  end.

(** [before p q l]: some element of [l] that satisfies [p] comes earlier in
    [l] than some element that satisfies [q]. *)
Fixpoint before {A} (p q : A → bool) (l : list A) : bool :=
  match l with
  | [] => false
  | x :: l' => (p x && existsb q l') || before p q l'
  end.

(** How many events of a kind a trace puts on the wire. *)
Definition emitted (p : ServerEvent → bool) (t : Trace) : nat :=
  length (List.filter (λ x, match x with Emit _ ev => p ev | _ => false end) t).

Definition is_authenticated (ev : ServerEvent) : bool :=
  match ev with authenticated _ => true | _ => false end.
Definition is_auth_error (ev : ServerEvent) : bool :=
  match ev with auth_error _ => true | _ => false end.
Definition is_message_history (ev : ServerEvent) : bool :=
  match ev with message_history _ => true | _ => false end.
Definition is_user_joined (ev : ServerEvent) : bool :=
  match ev with user_joined _ => true | _ => false end.
Definition is_user_left (ev : ServerEvent) : bool :=
  match ev with user_left _ => true | _ => false end.
Definition is_error (ev : ServerEvent) : bool :=
  match ev with error _ => true | _ => false end.

(** The three events the server sends with [io.emit]. *)
Definition is_broadcast (ev : ServerEvent) : bool :=
  match ev with
  | new_message _ | user_joined _ | user_left _ => true
  | _ => false
  end.

(** ** More of the client (Chat.jsx) *)

(** The [messages] state under the listeners for "message_history"
    ([setMessages(history)]) and "new_message"
    ([setMessages(prev => [...prev, message])]); no other event of the
    server's touches it. *)
Definition on_server_event (messages : list Message) (ev : ServerEvent)
  : list Message :=
  match ev with
  | message_history history => history
  | new_message message => messages ++ [message]
  | _ => messages
  end.

(** The first character of a string. *)
Definition first_char (s : string) : option ascii :=
  match s with
  | EmptyString => None
  | String c _ => Some c
  end.

(** ** The "authenticate" handler across its awaits

    The handler gives up control at each [await]; other handlers, the
    "disconnect" listener of its own socket among them, can run before it
    goes on. The two definitions below are the handler from such a point
    on. A packet that they address to a socket that has left the namespace
    is listed in the trace like any other; Socket.io drops it. *)

(** [socket.userId = uid; socket.nickname = nick] on a socket object that
    may have left the namespace: the fields of a connected socket change,
    and the namespace does not. *)
Definition set_identity_late (sid uid nick : string) : M unit :=
  modify (with_sockets (alter (λ _, mkSocket (Some uid) (Some nick)) sid)).

(** From the point where [await User.findById(decoded.id)] (server.js:346)
    hands back control. *)
Definition resume_authenticate (e : Env) (sid : string) (decoded : Claims)
  : M unit :=
  try_catch
    (user <- User_findById e (c_id decoded);
     match user with
     | None =>
         socket_emit sid (auth_error "Пользователь не найден");;
         close sid
     | Some user =>
         set_identity_late sid (c_id decoded) (u_nickname user);;
         connectedUsers_set sid (c_id decoded);;
         user_save e (c_id decoded) (touch e user);;
         messages <- Message_find_recent e 50;
         socket_emit sid (message_history (reverse messages));;
         socket_emit sid (authenticated (u_nickname user));;
         io_emit (user_joined (u_nickname user))
     end)
    (socket_emit sid (auth_error "Недействительный токен");;
     close sid).

(** From the point where [await Message.find()...lean()]
    (server.js:362-365) hands back [messages]: lines 367 to 371. *)
Definition finish_authenticate (sid nickname : string)
  (messages : list Message) : M unit :=
  socket_emit sid (message_history (reverse messages));;
  socket_emit sid (authenticated nickname);;
  io_emit (user_joined nickname).

(** ** The request/response routes that read the store *)

(** What the routes read of a request: [req.headers["authorization"]] and
    [req.query.limit], [None] when absent. *)
Record Request := mkRequest {
  authorization : option string;
  query_limit : option string
}.

Inductive Response :=
| status_json (status : nat) (error : string)    (* res.status(n).json({ error }) *)
| messages_json (messages : list Message)        (* res.json(messages.reverse()) *)
| user_json (id nickname : string) (email : option string)
| health_json (timestamp : Z).

Inductive Route :=
| GET_messages    (* /api/messages *)
| GET_user        (* /api/user *)
| GET_health.     (* /health *)

(** [s.split(sep)] for a separator of one character: the pieces between
    the separators, the empty ones included. *)
Fixpoint split_on (sep : ascii) (s : string) : list string :=
  match s with
  | EmptyString => [EmptyString]
  | String c s' =>
      if decide (c = sep) then EmptyString :: split_on sep s'
      else match split_on sep s' with
           | piece :: pieces => String c piece :: pieces
           | [] => [String c EmptyString]
           end
  end.

(** [authHeader && authHeader.split(" ")[1]]: [None] is [undefined]. An
    empty header is falsy and is the value of the conjunction. *)
Definition header_token (authHeader : option string) : option string :=
  match authHeader with
  | None => None
  | Some h => if decide (h = "") then Some "" else split_on " " h !! 1%nat
  end.

Section Routes.

Variable jwt_verify : string → option Claims.

(** [parseInt(req.query.limit)]: [None] is [NaN]. *)
Variable parseInt : option string → option Z.

(** What [.limit(n)] keeps of the sorted collection when [n] is negative;
    the driver's business, left open here. *)
Variable limit_negative : Z → list Message → list Message.

(** The middleware [authenticateToken]: a response, or [req.user] for the
    route that follows. *)
Definition authenticateToken (req : Request) : Response + Claims :=
  match header_token (authorization req) with
  | None => inl (status_json 401 "Токен не предоставлен")
  | Some token =>
      if decide (token = "") then inl (status_json 401 "Токен не предоставлен")
      else match jwt_verify token with
           | None => inl (status_json 403 "Недействительный токен")
           | Some user => inr user
           end
  end.

(** [parseInt(req.query.limit) || 50] *)
Definition limit_of (req : Request) : Z :=
  match parseInt (query_limit req) with
  | None => 50
  | Some n => if n =? 0 then 50 else n
  end.

(** [.sort({ timestamp: -1 }).limit(limit)], for a limit that is not zero. *)
Definition find_limited (limit : Z) (l : list Message) : list Message :=
  if 0 <? limit then recent (Z.to_nat limit) l
  else limit_negative limit (sort_desc l).

(** [app.get("/api/messages", authenticateToken, ...)] *)
Definition get_messages (e : Env) (req : Request) (s : Server) : Response :=
  match authenticateToken req with
  | inl refusal => refusal
  | inr _ =>
      if db_find_messages e
      then messages_json (reverse (find_limited (limit_of req) (Messages s)))
      else status_json 500 "Ошибка сервера"
  end.

(** [app.get("/api/user", authenticateToken, ...)] *)
Definition get_user (e : Env) (req : Request) (s : Server) : Response :=
  match authenticateToken req with
  | inl refusal => refusal
  | inr user =>
      if db_find_user e then
        match Users s !! c_id user with
        | None => status_json 404 "Пользователь не найден"
        | Some u => user_json (c_id user) (u_nickname u) (u_email u)
        end
      else status_json 500 "Ошибка сервера"
  end.

(** [app.get("/health", ...)] *)
Definition get_health (e : Env) : Response := health_json (now e).

Definition handle (e : Env) (route : Route) (req : Request) (s : Server)
  : Response :=
  match route with
  | GET_messages => get_messages e req s
  | GET_user => get_user e req s
  | GET_health => get_health e
  end.

End Routes.

(** [occurs c s]: the character [c] is in [s]. *)
Fixpoint occurs (c : ascii) (s : string) : bool :=
  match s with
  | EmptyString => false
  | String a s' => bool_decide (a = c) || occurs c s'
  end.

(** What a route answers with when it gives out stored data. *)
Definition discloses (r : Response) : bool :=
  match r with
  | messages_json _ | user_json _ _ _ => true
  | _ => false
  end.

(** ** More of the small world *)

Module Demo2.

(** A [parseInt] for the three values the examples use. *)
Definition parseInt (o : option string) : option Z :=
  match o with
  | Some s =>
      if decide (s = "10") then Some 10
      else if decide (s = "0") then Some 0
      else None
  | None => None
  end.

Definition limit_negative (n : Z) (l : list Message) : list Message :=
  take (Z.abs_nat n) l.

(** The store answers every call but [user.save()]. *)
Definition save_fails (t : Z) : Env := mkEnv t "" true false true true.

(** The lobby and a third connection, not authenticated either. *)
Definition hall : Server :=
  after Demo.jwt [(Demo.at_ 13 "", connection "s3")] Demo.lobby.

End Demo2.

(** * Properties *)

(** ** The history query *)

Section History.

Lemma insert_desc_perm m l : insert_desc m l ≡ₚ m :: l.
Proof.
  induction l as [|x l IH]; simpl; [done|].
  destruct (m_timestamp m <? m_timestamp x); [|done].
  rewrite IH. apply Permutation_swap.
Qed.

Lemma sort_desc_perm l : sort_desc l ≡ₚ l.
Proof.
  induction l as [|x l IH]; simpl; [done|].
  rewrite insert_desc_perm. by f_equiv.
Qed.

Lemma insert_desc_sorted m l :
  StronglySorted (flip no_later) l →
  StronglySorted (flip no_later) (insert_desc m l).
Proof.
  induction l as [|x l IH]; simpl; intros Hs.
  - repeat constructor.
  - apply StronglySorted_cons in Hs as [Hx Hl].
    destruct (m_timestamp m <? m_timestamp x) eqn:Hlt.
    + apply Z.ltb_lt in Hlt. apply StronglySorted_cons. split; [|auto].
      rewrite insert_desc_perm. constructor; [|done].
      unfold flip, no_later. lia.
    + apply Z.ltb_ge in Hlt. apply StronglySorted_cons. split.
      * constructor; [done|].
        eapply Forall_impl; [exact Hx|].
        unfold flip, no_later. intros; lia.
      * apply StronglySorted_cons; auto.
Qed.

Lemma sort_desc_sorted l : StronglySorted (flip no_later) (sort_desc l).
Proof.
  induction l as [|x l IH]; simpl; [constructor|].
  by apply insert_desc_sorted.
Qed.

(** Inserting a message that is older than all of [l] puts it last. *)
Lemma insert_desc_oldest m l :
  Forall (earlier m) l → insert_desc m l = l ++ [m].
Proof.
  induction 1 as [|x l Hx _ IH]; simpl; [done|].
  unfold earlier in Hx. apply Z.ltb_lt in Hx. by rewrite Hx, IH.
Qed.

(** On a collection whose timestamps strictly grow with the insertion
    order, the sort is the reversal. *)
Lemma sort_desc_increasing l :
  StronglySorted earlier l → sort_desc l = reverse l.
Proof.
  induction l as [|x l IH]; intros Hs; [done|].
  apply StronglySorted_cons in Hs as [Hx Hl]. simpl.
  rewrite IH by done. rewrite reverse_cons.
  apply insert_desc_oldest. by rewrite Forall_reverse.
Qed.

Lemma StronglySorted_take {A} (R : relation A) n l :
  StronglySorted R l → StronglySorted R (take n l).
Proof.
  intros Hs. rewrite <- (take_drop n l) in Hs.
  by apply StronglySorted_app_1_l in Hs.
Qed.

Lemma StronglySorted_reverse {A} (R : relation A) l :
  StronglySorted R l → StronglySorted (flip R) (reverse l).
Proof.
  induction 1 as [|x l Hl IH Hx]; [constructor|].
  rewrite reverse_cons. apply StronglySorted_app_2; [|done|repeat constructor].
  intros y z Hy Hz. apply list_elem_of_singleton in Hz as ->.
  rewrite elem_of_reverse in Hy. rewrite Forall_forall in Hx.
  unfold flip. by apply Hx.
Qed.

(** What "message_history" carries: at most [n] messages, by
    non-decreasing timestamp, all of them from the collection. *)
Lemma history_length n l :
  length (reverse (recent n l)) = Nat.min n (length l).
Proof.
  unfold recent. rewrite length_reverse, length_take.
  by rewrite (Permutation_length (sort_desc_perm l)).
Qed.

Lemma history_sorted n l : StronglySorted no_later (reverse (recent n l)).
Proof.
  apply (StronglySorted_reverse (flip no_later)).
  apply StronglySorted_take, sort_desc_sorted.
Qed.

Lemma history_subset n l m : m ∈ reverse (recent n l) → m ∈ l.
Proof.
  rewrite elem_of_reverse. unfold recent. intros Hm.
  apply elem_of_take in Hm as (i & Hi & _).
  rewrite <- (sort_desc_perm l). by eapply list_elem_of_lookup_2.
Qed.

(** A message left out of the history is not later than any message in it. *)
Lemma history_latest n l k a b :
  sort_desc l = k → a ∈ drop n k → b ∈ reverse (recent n l) → no_later a b.
Proof.
  intros <- Ha Hb. rewrite elem_of_reverse in Hb. unfold recent in Hb.
  pose proof (sort_desc_sorted l) as Hs.
  rewrite <- (take_drop n (sort_desc l)) in Hs.
  by apply (StronglySorted_app_1_elem_of _ _ _ b a) in Hs.
Qed.

(** With timestamps strictly growing in the insertion order, the history
    is the last [n] stored messages, in the insertion order. *)
Lemma history_increasing n l :
  StronglySorted earlier l →
  reverse (recent n l) = drop (length l - n)%nat l.
Proof.
  intros Hs. unfold recent. rewrite sort_desc_increasing by done.
  by rewrite take_reverse, reverse_involutive.
Qed.

End History.

(** ** The registry and the sockets agree *)

#[local] Arguments validate : simpl never.
#[local] Arguments new_Message : simpl never.
#[local] Arguments recent : simpl never.

Ltac exec :=
  unfold step, run, dispatch, on_connection, on_authenticate, on_send_message,
    on_typing, close, on_disconnect, verify, User_findById, user_save,
    Message_find_recent, message_save, get_text, connectedUsers_set,
    connectedUsers_delete, set_identity, this, io_emit, socket_broadcast_emit,
    socket_emit, try_catch, bind, gets, modify, tell, ret, throw;
  cbn [fst snd subject sockets connectedUsers Users Messages with_sockets
       with_connectedUsers with_Users with_Messages app negb truthy].

Section Engine.

Variable jwt_verify : string → option Claims.

Abbreviation step := (step jwt_verify).

(** *** One equation per handler and case *)

Lemma step_absent e ev s :
  (∀ sid, ev ≠ connection sid) → sockets s !! subject ev = None →
  step e ev s = (s, []).
Proof. intros Hev Hs. exec. rewrite Hs. destruct ev; try done. by destruct (Hev sid). Qed.

Lemma step_connection e sid s :
  sockets s !! sid = None →
  step e (connection sid) s = (with_sockets (<[sid := unauthenticated]>) s, []).
Proof. intros Hs. exec. by rewrite Hs. Qed.

Lemma step_connection_taken e sid sock s :
  sockets s !! sid = Some sock → step e (connection sid) s = (s, []).
Proof. intros Hs. exec. by rewrite Hs. Qed.

Lemma step_preserves_consistent e ev s :
  consistent s → consistent (step e ev s).1.
Proof.
  intros Hc. destruct ev; exec.
  all: repeat case_match; simplify_eq; cbn.
  all: try done.
  all: intros k; specialize (Hc k); cbn in *.
  all: destruct (decide (k = sid)); simplify_map_eq; try done.
  all: rewrite Hc; by destruct (userId _).
Qed.

Lemma reachable_consistent s : reachable jwt_verify s → consistent s.
Proof.
  induction 1 as [us ms|e ev s _ IH].
  - intros k. cbn. by rewrite !lookup_empty.
  - by apply step_preserves_consistent.
Qed.

(** A registry entry belongs to a connected socket. *)
Lemma consistent_registry_connected s :
  consistent s → dom (connectedUsers s) ⊆ dom (sockets s).
Proof.
  intros Hc k. rewrite !elem_of_dom, Hc.
  destruct (sockets s !! k); [eauto|]. by intros [? ?].
Qed.

(** *** The connection ends *)

Lemma step_disconnect_authenticated e sid sock uid s :
  sockets s !! sid = Some sock → userId sock = Some uid →
  step e (disconnect sid) s =
    (with_connectedUsers (delete sid) (with_sockets (delete sid) s),
     [Closed sid;
      Emit (dom (sockets s) ∖ {[sid]}) (user_left (nick sock));
      RegistryDelete sid]).
Proof.
  intros Hs Hu. exec. repeat (rewrite ?Hs, ?Hu; progress cbn).
  by rewrite dom_delete_L.
Qed.

Lemma step_disconnect_unauthenticated e sid sock s :
  sockets s !! sid = Some sock → userId sock = None →
  step e (disconnect sid) s = (with_sockets (delete sid) s, [Closed sid]).
Proof. intros Hs Hu. exec. by repeat (rewrite ?Hs, ?Hu; progress cbn). Qed.

(** *** "typing" *)

Lemma step_typing_authenticated e sid sock uid s :
  sockets s !! sid = Some sock → userId sock = Some uid →
  step e (typing sid) s =
    (s, [Emit (dom (sockets s) ∖ {[sid]}) (user_typing (nick sock))]).
Proof. intros Hs Hu. exec. by repeat (rewrite ?Hs, ?Hu; progress cbn). Qed.

Lemma step_typing_unauthenticated e sid sock s :
  sockets s !! sid = Some sock → userId sock = None →
  step e (typing sid) s = (s, []).
Proof. intros Hs Hu. exec. by repeat (rewrite ?Hs, ?Hu; progress cbn). Qed.

(** *** "send_message" *)

Lemma step_send_unauthenticated e sid sock messageData s :
  sockets s !! sid = Some sock → userId sock = None →
  step e (send_message sid messageData) s =
    (s, [Emit {[sid]} (error "Не авторизован")]).
Proof. intros Hs Hu. exec. by repeat (rewrite ?Hs, ?Hu; progress cbn). Qed.

Lemma step_send_rejected e sid sock uid messageData s :
  sockets s !! sid = Some sock → userId sock = Some uid →
  accepted e sock messageData = None →
  step e (send_message sid messageData) s =
    (s, [Emit {[sid]} (error "Ошибка отправки сообщения")]).
Proof.
  intros Hs Hu Ha. exec. repeat (rewrite ?Hs, ?Hu; progress cbn).
  destruct messageData as [|text]; [done|]. cbn in Ha. rewrite Hu in Ha.
  destruct (validate _); [|done]. cbn in Ha.
  by destruct (db_save_message e).
Qed.

Lemma step_send_accepted e sid sock uid messageData m s :
  sockets s !! sid = Some sock → userId sock = Some uid →
  accepted e sock messageData = Some m →
  step e (send_message sid messageData) s =
    (with_Messages (λ l, l ++ [m]) s,
     [MessageSaved m; Emit (dom (sockets s)) (new_message m)]).
Proof.
  intros Hs Hu Ha. exec. repeat (rewrite ?Hs, ?Hu; progress cbn).
  destruct messageData as [|text]; [done|]. cbn in Ha. rewrite Hu in Ha.
  destruct (validate _); [|done]. cbn in Ha.
  destruct (db_save_message e); by simplify_eq.
Qed.

(** *** "authenticate" *)

(** A token that does not verify, or a lookup that throws: the [catch]
    block. What follows the "auth_error" is the end of the connection. *)
Lemma step_authenticate_invalid e sid sock token s :
  sockets s !! sid = Some sock → jwt_verify token = None →
  step e (authenticate sid token) s =
    ((step e (disconnect sid) s).1,
     Emit {[sid]} (auth_error "Недействительный токен")
       :: (step e (disconnect sid) s).2).
Proof.
  intros Hs Hv. exec. rewrite Hs, Hv. by repeat case_match; simplify_eq.
Qed.

Lemma step_authenticate_lookup_failed e sid sock token decoded s :
  sockets s !! sid = Some sock → jwt_verify token = Some decoded →
  db_find_user e = false →
  step e (authenticate sid token) s =
    ((step e (disconnect sid) s).1,
     Emit {[sid]} (auth_error "Недействительный токен")
       :: (step e (disconnect sid) s).2).
Proof.
  intros Hs Hv Hf. exec. rewrite Hs, Hv, Hf.
  by repeat case_match; simplify_eq.
Qed.

(** The token verifies and the user is gone. *)
Lemma step_authenticate_unknown e sid sock token decoded s :
  sockets s !! sid = Some sock → jwt_verify token = Some decoded →
  db_find_user e = true → Users s !! c_id decoded = None →
  step e (authenticate sid token) s =
    ((step e (disconnect sid) s).1,
     Emit {[sid]} (auth_error "Пользователь не найден")
       :: (step e (disconnect sid) s).2).
Proof.
  intros Hs Hv Hf Hu. exec. rewrite Hs, Hv, Hf. cbn. rewrite Hu, Hs.
  by repeat case_match; simplify_eq.
Qed.

(** The token verifies, the user exists and the store answers. *)
Lemma step_authenticate_ok e sid sock token decoded user s :
  sockets s !! sid = Some sock → jwt_verify token = Some decoded →
  db_find_user e = true → Users s !! c_id decoded = Some user →
  db_save_user e = true → db_find_messages e = true →
  step e (authenticate sid token) s =
    (with_Users (<[c_id decoded := touch e user]>)
       (with_connectedUsers (<[sid := c_id decoded]>)
          (with_sockets
             (<[sid := mkSocket (Some (c_id decoded)) (Some (u_nickname user))]>) s)),
     [RegistrySet sid (c_id decoded);
      UserSaved (c_id decoded) (now e);
      Emit {[sid]} (message_history (reverse (recent 50 (Messages s))));
      Emit {[sid]} (authenticated (u_nickname user));
      Emit (dom (sockets s)) (user_joined (u_nickname user))]).
Proof.
  intros Hs Hv Hf Hu Hsave Hfind. exec.
  rewrite Hs, Hv, Hf. cbn. rewrite Hu, Hsave, Hfind. cbn.
  assert (Hin : sid ∈ dom (sockets s)) by (apply elem_of_dom; eauto).
  rewrite dom_insert_L.
  by replace ({[sid]} ∪ dom (sockets s)) with (dom (sockets s)) by set_solver.
Qed.


(** *** What is sent to whom *)

Lemma received_singleton sid ev t :
  received sid (Emit {[sid]} ev :: t) = ev :: received sid t.
Proof. unfold received. cbn. by rewrite decide_True by set_solver. Qed.

Lemma received_others sid all ev t :
  received sid (Emit (all ∖ {[sid]}) ev :: t) = received sid t.
Proof. unfold received. cbn. by rewrite decide_False by set_solver. Qed.

Lemma received_all sid all ev t :
  sid ∈ all → received sid (Emit all ev :: t) = ev :: received sid t.
Proof. intros Hin. unfold received. cbn. by rewrite decide_True. Qed.

Lemma accepted_inv e sock messageData m :
  accepted e sock messageData = Some m →
  db_save_message e = true ∧
  m_id m = fresh_id e ∧ m_timestamp m = now e ∧
  userId sock = Some (m_userId m) ∧ nickname sock = Some (m_nickname m) ∧
  messageData = md_object (Some (m_text m)) ∧
  m_text m ≠ "" ∧ m_nickname m ≠ "".
Proof.
  destruct messageData as [|text]; [done|].
  unfold accepted, validate, required, new_Message.
  destruct sock as [[uid|] [n|]], text as [text|]; cbn; try done.
  all: repeat case_decide; cbn; try done.
  destruct (db_save_message e); [|done]. intros [= <-]. by cbn.
Qed.

Lemma accepted_text e uid n text :
  text ≠ "" → n ≠ "" → db_save_message e = true →
  accepted e (mkSocket (Some uid) (Some n)) (md_object (Some text))
  = Some (mkMessage (fresh_id e) uid n text (now e)).
Proof.
  intros Ht Hn He. unfold accepted, validate, required, new_Message. cbn.
  rewrite !decide_False by done. cbn. by rewrite He.
Qed.

Lemma accepted_refused e sock messageData :
  db_save_message e = false → accepted e sock messageData = None.
Proof.
  intros He. destruct messageData as [|text]; [done|]. unfold accepted.
  destruct (validate _); [|done]. cbn. by rewrite He.
Qed.

(** C1. A "send_message" on an authenticated connection either stores
    nothing, sends "error" to the sender alone and broadcasts nothing, or
    stores the message and, after that, sends it as "new_message", with
    the id and the timestamp it was stored with, to every connected
    socket; these include the sender and every socket of the registry. A
    refusal of the store gives the first case; a text that is not empty,
    on a store that accepts it, gives the second. *)
Theorem send_message_persists_then_broadcasts e sid sock uid messageData s :
  consistent s →
  sockets s !! sid = Some sock → userId sock = Some uid →
  (db_save_message e = false →
     step e (send_message sid messageData) s =
       (s, [Emit {[sid]} (error "Ошибка отправки сообщения")]))
  ∧ (step e (send_message sid messageData) s =
       (s, [Emit {[sid]} (error "Ошибка отправки сообщения")])
     ∨ ∃ m,
         m_id m = fresh_id e ∧ m_timestamp m = now e ∧ m_userId m = uid ∧
         nickname sock = Some (m_nickname m) ∧
         messageData = md_object (Some (m_text m)) ∧
         step e (send_message sid messageData) s =
           (with_Messages (λ l, l ++ [m]) s,
            [MessageSaved m; Emit (dom (sockets s)) (new_message m)]) ∧
         sid ∈ dom (sockets s) ∧
         dom (connectedUsers s) ⊆ dom (sockets s))
  ∧ (∀ text n,
       messageData = md_object (Some text) → nickname sock = Some n →
       text ≠ "" → n ≠ "" → db_save_message e = true →
       step e (send_message sid messageData) s =
         (with_Messages (λ l, l ++ [mkMessage (fresh_id e) uid n text (now e)]) s,
          [MessageSaved (mkMessage (fresh_id e) uid n text (now e));
           Emit (dom (sockets s))
             (new_message (mkMessage (fresh_id e) uid n text (now e)))])).
Proof.
  intros Hc Hs Hu. split; [|split].
  - intros He. eapply step_send_rejected; eauto using accepted_refused.
  - destruct (accepted e sock messageData) as [m|] eqn:Ha.
    + right. exists m.
      destruct (accepted_inv _ _ _ _ Ha) as (_ & ? & ? & Hm & ? & ? & _).
      rewrite Hu in Hm. injection Hm as ->.
      repeat split; try done.
      * by eapply step_send_accepted.
      * apply elem_of_dom; eauto.
      * by apply consistent_registry_connected.
    + left. by eapply step_send_rejected.
  - intros text n -> Hn Ht Hne He.
    eapply step_send_accepted; eauto.
    destruct sock as [u n']; cbn in *; subst. by apply accepted_text.
Qed.

(** Whatever the event, a "new_message", "user_joined" or "user_left" that
    is sent goes to the sockets connected when the handler is done, all of
    them. *)
Lemma broadcast_recipients e ev s to evt :
  Emit to evt ∈ (step e ev s).2 → is_broadcast evt = true →
  to = dom (sockets (step e ev s).1)
  ∧ ∀ k, is_Some (sockets (step e ev s).1 !! k) → evt ∈ received k (step e ev s).2.
Proof.
  intros Hin Hb.
  assert (Hto : to = dom (sockets (step e ev s).1)).
  { revert Hin. destruct ev; exec.
    all: repeat case_match; simplify_eq; cbn.
    all: rewrite ?elem_of_cons, ?elem_of_nil; intros Hin.
    all: repeat (destruct Hin as [Hin|Hin]); simplify_eq; try done.
    all: rewrite ?dom_insert_L, ?dom_delete_L.
    all: try match goal with
         | H : sockets _ !! ?sid = Some _ |- _ =>
             apply (elem_of_dom_2 (D := gset string)) in H
         end.
    all: set_solver. }
  split; [done|]. intros k Hk. apply elem_of_dom in Hk. rewrite <- Hto in Hk.
  revert Hin. generalize (step e ev s).2. intros t.
  induction t as [|x t IH]; [by rewrite elem_of_nil|].
  rewrite elem_of_cons. intros [<-|Hin].
  - rewrite received_all by done. left.
  - unfold received in *. cbn. repeat case_match; try right; auto.
Qed.

(** C10. A connected socket [k], whether it ever authenticated or not and
    whatever the registry holds, receives the "new_message" of every
    message that is stored, the "user_joined" of every successful
    "authenticate", and the "user_left" of every other authenticated
    connection that closes; and whenever one of these three events is
    sent, its recipients are the sockets of the namespace, all of them:
    the registry plays no part. *)
Theorem broadcasts_reach_every_socket e s k :
  is_Some (sockets s !! k) →
  (∀ sid sock uid messageData m,
     sockets s !! sid = Some sock → userId sock = Some uid →
     accepted e sock messageData = Some m →
     new_message m ∈ received k (step e (send_message sid messageData) s).2)
  ∧ (∀ sid sock token decoded user,
       sockets s !! sid = Some sock → jwt_verify token = Some decoded →
       db_find_user e = true → Users s !! c_id decoded = Some user →
       db_save_user e = true → db_find_messages e = true →
       user_joined (u_nickname user)
       ∈ received k (step e (authenticate sid token) s).2)
  ∧ (∀ sid sock uid n,
       sockets s !! sid = Some sock → userId sock = Some uid →
       nickname sock = Some n → k ≠ sid →
       user_left n ∈ received k (step e (disconnect sid) s).2)
  ∧ (∀ ev to evt,
       Emit to evt ∈ (step e ev s).2 → is_broadcast evt = true →
       to = dom (sockets (step e ev s).1)
       ∧ ∀ k', is_Some (sockets (step e ev s).1 !! k') →
               evt ∈ received k' (step e ev s).2).
Proof.
  intros Hk. pose proof Hk as Hin. apply elem_of_dom in Hin.
  split; [|split; [|split]].
  - intros sid sock uid messageData m Hs Hu Ha.
    rewrite (step_send_accepted _ _ _ _ _ _ _ Hs Hu Ha). cbn [snd].
    unfold received. cbn. rewrite decide_True by done. left.
  - intros sid sock token decoded user Hs Hv Hf Hu Hsave Hfind.
    rewrite (step_authenticate_ok _ _ _ _ _ _ _ Hs Hv Hf Hu Hsave Hfind).
    cbn [snd]. unfold received. cbn.
    rewrite (decide_True (P := k ∈ dom (sockets s))) by done.
    destruct (decide (k ∈ {[sid]})); [do 2 right|]; left.
  - intros sid sock uid n Hs Hu Hn Hne.
    rewrite (step_disconnect_authenticated _ _ _ _ _ Hs Hu). cbn [snd].
    unfold nick, received. rewrite Hn. cbn.
    rewrite decide_True by set_solver. left.
  - intros ev to evt. apply broadcast_recipients.
Qed.

(** The end of a connection, whatever the socket carries. *)
Lemma step_disconnect_gone e sid sock s :
  consistent s → sockets s !! sid = Some sock →
  sockets (step e (disconnect sid) s).1 !! sid = None
  ∧ connectedUsers (step e (disconnect sid) s).1 = delete sid (connectedUsers s)
  ∧ received sid (step e (disconnect sid) s).2 = []
  ∧ emitted is_auth_error (step e (disconnect sid) s).2 = 0%nat
  ∧ Closed sid ∈ (step e (disconnect sid) s).2
  ∧ ∀ k uid, RegistrySet k uid ∉ (step e (disconnect sid) s).2.
Proof.
  intros Hc Hs. destruct (userId sock) as [uid|] eqn:Hu.
  - rewrite (step_disconnect_authenticated _ _ _ _ _ Hs Hu). cbn.
    rewrite lookup_delete_eq. repeat split; try done.
    + unfold received. cbn. by rewrite decide_False by set_solver.
    + left.
    + intros k u. rewrite !elem_of_cons, elem_of_nil. naive_solver.
  - rewrite (step_disconnect_unauthenticated _ _ _ _ Hs Hu). cbn.
    rewrite lookup_delete_eq. repeat split; try done.
    + symmetry. apply delete_id. by rewrite Hc, Hs; cbn.
    + left.
    + intros k u. rewrite !elem_of_cons, elem_of_nil. naive_solver.
Qed.

(** C9. When the token does not verify (malformed, badly signed,
    expired), or verifies for a user that the store does not have,
    "authenticate" sends one "auth_error", to the caller, which receives
    nothing else, and closes the connection; the handler sets no registry
    entry, and the registry has none for the connection afterwards. *)
Theorem authenticate_failure_closes e sid sock token s :
  consistent s → sockets s !! sid = Some sock →
  jwt_verify token = None
  ∨ (∃ decoded, jwt_verify token = Some decoded ∧ db_find_user e = true
                ∧ Users s !! c_id decoded = None) →
  (∃ msg, received sid (step e (authenticate sid token) s).2 = [auth_error msg])
  ∧ emitted is_auth_error (step e (authenticate sid token) s).2 = 1%nat
  ∧ Closed sid ∈ (step e (authenticate sid token) s).2
  ∧ sockets (step e (authenticate sid token) s).1 !! sid = None
  ∧ (∀ k uid, RegistrySet k uid ∉ (step e (authenticate sid token) s).2)
  ∧ connectedUsers (step e (authenticate sid token) s).1
    = delete sid (connectedUsers s)
  ∧ connectedUsers (step e (authenticate sid token) s).1 !! sid = None.
Proof.
  intros Hc Hs Hbad.
  destruct (step_disconnect_gone e sid sock s Hc Hs)
    as (Hgone & Hreg & Hrecv & Hcount & Hclosed & Hset).
  assert (∃ msg, step e (authenticate sid token) s =
            ((step e (disconnect sid) s).1,
             Emit {[sid]} (auth_error msg) :: (step e (disconnect sid) s).2))
    as [msg ->].
  { destruct Hbad as [Hv|(decoded & Hv & Hf & Hu)]; eexists.
    - by eapply step_authenticate_invalid.
    - by eapply step_authenticate_unknown. }
  cbn [fst snd]. rewrite received_singleton, Hrecv.
  repeat split; try done.
  - by exists msg.
  - unfold emitted in *. cbn. by rewrite Hcount.
  - by right.
  - intros k uid. rewrite elem_of_cons. intros [?|?]; [done|].
    by eapply Hset.
  - rewrite Hreg. apply lookup_delete_eq.
Qed.

(** C7, as the code has it. On a connection that is not authenticated, a
    "send_message" is answered by one "error" to the sender and a
    "typing" by nothing at all; neither changes the state, so nothing is
    stored, and neither sends anything to another socket. *)
Theorem unauthenticated_events_rejected e sid sock messageData s :
  sockets s !! sid = Some sock → userId sock = None →
  step e (send_message sid messageData) s =
    (s, [Emit {[sid]} (error "Не авторизован")])
  ∧ step e (typing sid) s = (s, []).
Proof.
  intros Hs Hu. split.
  - by eapply step_send_unauthenticated.
  - by eapply step_typing_unauthenticated.
Qed.

(** C8, as the code has it. When an authenticated connection closes, one
    "user_left" with its display name goes to every socket that is still
    connected, and after that its registry entry is deleted: the entry is
    gone when the handler returns, and what remains of the registry are
    connected sockets. When the connection never authenticated, nothing is
    sent and the registry is as it was. *)
Theorem disconnect_announces_then_forgets e sid sock s :
  consistent s → sockets s !! sid = Some sock →
  sockets (step e (disconnect sid) s).1 = delete sid (sockets s)
  ∧ connectedUsers (step e (disconnect sid) s).1 = delete sid (connectedUsers s)
  ∧ connectedUsers (step e (disconnect sid) s).1 !! sid = None
  ∧ dom (connectedUsers (step e (disconnect sid) s).1)
    ⊆ dom (sockets (step e (disconnect sid) s).1)
  ∧ (∀ uid n, userId sock = Some uid → nickname sock = Some n →
       (step e (disconnect sid) s).2 =
         [Closed sid;
          Emit (dom (delete sid (sockets s))) (user_left n);
          RegistryDelete sid])
  ∧ (userId sock = None →
       (step e (disconnect sid) s).2 = [Closed sid]
       ∧ connectedUsers (step e (disconnect sid) s).1 = connectedUsers s).
Proof.
  intros Hc Hs.
  pose proof (step_preserves_consistent e (disconnect sid) s Hc) as Hc'.
  destruct (step_disconnect_gone e sid sock s Hc Hs) as (_ & Hreg & _).
  split; [|split; [done|split; [|split; [|split]]]].
  - destruct (userId sock) as [uid|] eqn:Hu.
    + by rewrite (step_disconnect_authenticated _ _ _ _ _ Hs Hu).
    + by rewrite (step_disconnect_unauthenticated _ _ _ _ Hs Hu).
  - rewrite Hreg. apply lookup_delete_eq.
  - by apply consistent_registry_connected.
  - intros uid n Hu Hn.
    rewrite (step_disconnect_authenticated _ _ _ _ _ Hs Hu). cbn.
    unfold nick. rewrite Hn. cbn. by rewrite dom_delete_L.
  - intros Hu. rewrite (step_disconnect_unauthenticated _ _ _ _ Hs Hu).
    split; [done|]. cbn. done.
Qed.

(** *** A successful "authenticate" *)

Section Success.

Context (e : Env) (sid token : string) (sock : Socket)
        (decoded : Claims) (user : User) (s : Server).
Hypothesis Hconnected : sockets s !! sid = Some sock.
Hypothesis Hverified : jwt_verify token = Some decoded.
Hypothesis Hlookup : db_find_user e = true.
Hypothesis Hfound : Users s !! c_id decoded = Some user.
Hypothesis Hsaved : db_save_user e = true.
Hypothesis Hqueried : db_find_messages e = true.

Let s' := (step e (authenticate sid token) s).1.
Let t := (step e (authenticate sid token) s).2.
Let h := reverse (recent 50 (Messages s)).

Lemma success_trace :
  t = [RegistrySet sid (c_id decoded);
       UserSaved (c_id decoded) (now e);
       Emit {[sid]} (message_history h);
       Emit {[sid]} (authenticated (u_nickname user));
       Emit (dom (sockets s)) (user_joined (u_nickname user))].
Proof. unfold t. by erewrite step_authenticate_ok. Qed.

Lemma success_registry :
  connectedUsers s' = <[sid := c_id decoded]> (connectedUsers s).
Proof. unfold s'. by erewrite step_authenticate_ok. Qed.

Lemma success_received k :
  is_Some (sockets s !! k) →
  received k t =
    if decide (k = sid)
    then [message_history h; authenticated (u_nickname user);
          user_joined (u_nickname user)]
    else [user_joined (u_nickname user)].
Proof.
  intros Hk. apply elem_of_dom in Hk. rewrite success_trace.
  unfold received. cbn. destruct (decide (k = sid)) as [->|Hne].
  - by rewrite !decide_True by set_solver.
  - rewrite !decide_False by set_solver. by rewrite decide_True.
Qed.

(** C2, as the code has it. When the token verifies, the user exists and
    the store answers, the caller receives one "message_history", of at
    most 50 messages in non-decreasing timestamp order, and after it one
    "authenticated" with the display name; no other socket receives
    either. *)
Theorem authenticate_history_then_authenticated :
  received sid t =
    [message_history h; authenticated (u_nickname user);
     user_joined (u_nickname user)]
  ∧ emitted is_message_history t = 1%nat
  ∧ emitted is_authenticated t = 1%nat
  ∧ before is_message_history is_authenticated (received sid t) = true
  ∧ before is_authenticated is_message_history (received sid t) = false
  ∧ (length h ≤ 50)%nat
  ∧ StronglySorted no_later h
  ∧ (∀ k, k ≠ sid → is_Some (sockets s !! k) →
          received k t = [user_joined (u_nickname user)]).
Proof.
  assert (Hr : received sid t =
            [message_history h; authenticated (u_nickname user);
             user_joined (u_nickname user)]).
  { rewrite success_received by eauto. by rewrite decide_True. }
  rewrite Hr. split; [done|].
  assert (Hothers : ∀ k, k ≠ sid → is_Some (sockets s !! k) →
                         received k t = [user_joined (u_nickname user)]).
  { intros k Hne Hk. rewrite success_received by done. by rewrite decide_False. }
  rewrite success_trace in *.
  repeat split; try done.
  - unfold h. rewrite history_length. lia.
  - apply history_sorted.
Qed.

(** C3, as the code has it. The history sent on authentication is made
    of the 50 stored messages with the latest timestamps (all of them
    when there are fewer), by non-decreasing timestamp. When the
    timestamps grow strictly along the insertion order, this is the
    last 50 stored messages in the insertion order. *)
Theorem history_is_latest_by_timestamp :
  Emit {[sid]} (message_history h) ∈ t
  ∧ length h = Nat.min 50 (length (Messages s))
  ∧ StronglySorted no_later h
  ∧ (∀ m, m ∈ h → m ∈ Messages s)
  ∧ (∀ a b, a ∈ Messages s → a ∉ h → b ∈ h → no_later a b)
  ∧ (StronglySorted earlier (Messages s) →
       h = drop (length (Messages s) - 50)%nat (Messages s)).
Proof.
  rewrite success_trace. repeat split.
  - do 2 right. left.
  - apply history_length.
  - apply history_sorted.
  - apply history_subset.
  - intros a b Ha Hna Hb.
    rewrite <- (sort_desc_perm (Messages s)) in Ha.
    rewrite <- (take_drop 50 (sort_desc (Messages s))) in Ha.
    apply elem_of_app in Ha as [Ha|Ha].
    + exfalso. apply Hna. unfold h. by rewrite elem_of_reverse.
    + by eapply history_latest.
  - apply history_increasing.
Qed.

(** C5, as the code has it. An "authenticate" on a connection that is
    authenticated already runs like the first one: the registry entry
    of the connection is overwritten with the user of the new token,
    the history is sent again and "user_joined" is broadcast again. *)
Theorem second_authenticate_runs_again old :
  connectedUsers s !! sid = Some old →
  connectedUsers s' !! sid = Some (c_id decoded)
  ∧ RegistrySet sid (c_id decoded) ∈ t
  ∧ Emit {[sid]} (message_history h) ∈ t
  ∧ Emit (dom (sockets s)) (user_joined (u_nickname user)) ∈ t
  ∧ received sid t =
      [message_history h; authenticated (u_nickname user);
       user_joined (u_nickname user)].
Proof.
  intros _. rewrite success_registry, lookup_insert_eq.
  rewrite (success_received sid) by eauto. rewrite decide_True by done.
  rewrite success_trace. repeat split.
  - left.
  - do 2 right. left.
  - do 4 right. left.
Qed.

(** C6, as the code has it. After a successful "authenticate", one
    "user_joined" with the display name goes to every connected socket,
    the caller included. *)
Theorem user_joined_reaches_caller_too :
  emitted is_user_joined t = 1%nat
  ∧ Emit (dom (sockets s)) (user_joined (u_nickname user)) ∈ t
  ∧ user_joined (u_nickname user) ∈ received sid t
  ∧ ∀ k, is_Some (sockets s !! k) →
         user_joined (u_nickname user) ∈ received k t.
Proof.
  assert (Hall : ∀ k, is_Some (sockets s !! k) →
                      user_joined (u_nickname user) ∈ received k t).
  { intros k Hk. rewrite success_received by done.
    case_decide; [do 2 right|]; left. }
  repeat split; [..|apply Hall; eauto|done].
  - by rewrite success_trace.
  - rewrite success_trace. do 4 right. left.
Qed.

End Success.

End Engine.
(** ** The client *)

#[local] Arguments white_space : simpl never.

Lemma trimStart_from_empty k s :
  trimStart_from k s = "" ↔ whitespace_only_from k s = true.
Proof.
  revert k. induction s as [|c s IH]; intros k; cbn; [done|].
  destruct k as [|k]; [|apply IH].
  destruct (white_space (String c s)) as [|n]; [done|apply IH].
Qed.

(** What [trimStart] leaves does not start with white space. *)
Lemma trimStart_from_clean k s :
  trimStart_from k s = "" ∨ white_space (trimStart_from k s) = 0%nat.
Proof.
  revert k. induction s as [|c s IH]; intros k; cbn; [by left|].
  destruct k as [|k]; [|apply IH].
  destruct (white_space (String c s)) as [|n] eqn:Hw; [by right|apply IH].
Qed.

Lemma trimEnd_empty s : trimEnd s = "" ↔ whitespace_only s = true.
Proof.
  destruct s as [|c s]; [done|]. cbn [trimEnd].
  by destruct (whitespace_only (String c s)).
Qed.

Lemma trim_empty_iff s : trim s = "" ↔ whitespace_only s = true.
Proof.
  unfold trim. rewrite trimEnd_empty. unfold whitespace_only at 2.
  rewrite <- trimStart_from_empty. fold (trimStart s). split.
  - intros Hw. destruct (trimStart_from_clean 0 s) as [He|Hc]; [done|].
    fold (trimStart s) in Hc. unfold whitespace_only in Hw.
    destruct (trimStart s) as [|c t]; [done|]. cbn in Hw. by rewrite Hc in Hw.
  - by intros ->.
Qed.

Lemma handleSendMessage_blank inputMessage has_socket connected :
  trim inputMessage = "" →
  handleSendMessage inputMessage has_socket connected = None.
Proof. intros Ht. unfold handleSendMessage. by rewrite bool_decide_eq_true_2. Qed.

Lemma handleSendMessage_sends inputMessage has_socket connected messageData :
  handleSendMessage inputMessage has_socket connected = Some messageData →
  messageData = md_object (Some (trim inputMessage)) ∧ trim inputMessage ≠ "".
Proof.
  unfold handleSendMessage. case_bool_decide; cbn; [done|].
  destruct (_ || _); [done|]. by intros [= <-].
Qed.

(** C4, as the code has it. The server stores and broadcasts the text as it
    came, untrimmed: on an authenticated connection, a payload without a
    text, or with the empty text, is answered by "error" to the sender and
    nothing is stored, and any other text, one made of white space
    included, is stored and broadcast unchanged when the store accepts
    it. *)
Theorem send_message_text_is_not_trimmed jwt_verify e sid uid n s :
  sockets s !! sid = Some (mkSocket (Some uid) (Some n)) → n ≠ "" →
  (∀ messageData,
     messageData = md_nullish ∨ messageData = md_object None
     ∨ messageData = md_object (Some "") →
     step jwt_verify e (send_message sid messageData) s =
       (s, [Emit {[sid]} (error "Ошибка отправки сообщения")]))
  ∧ (∀ text, text ≠ "" → db_save_message e = true →
       step jwt_verify e (send_message sid (md_object (Some text))) s =
         (with_Messages (λ l, l ++ [mkMessage (fresh_id e) uid n text (now e)]) s,
          [MessageSaved (mkMessage (fresh_id e) uid n text (now e));
           Emit (dom (sockets s))
             (new_message (mkMessage (fresh_id e) uid n text (now e)))])).
Proof.
  intros Hs Hn. split.
  - intros messageData Hd. eapply step_send_rejected; [done..|].
    destruct Hd as [->| [->| ->]]; [done|..].
    all: unfold accepted, validate, required, new_Message; cbn.
    all: by simplify_option_eq.
  - intros text Ht He. eapply step_send_accepted; [done..|].
    by apply accepted_text.
Qed.

(** ** Runs of the small world *)

Lemma reachable_after jwt_verify l s :
  reachable jwt_verify s → reachable jwt_verify (after jwt_verify l s).
Proof.
  revert s. induction l as [|[e ev] l IH]; intros s Hs; [done|].
  cbn. apply IH. by constructor.
Qed.

Lemma lobby_consistent : consistent Demo.lobby.
Proof.
  apply (reachable_consistent Demo.jwt), reachable_after. constructor.
Qed.

Lemma lobby_s1 :
  sockets Demo.lobby !! "s1" = Some (mkSocket (Some "a1") (Some "alice")).
Proof. by vm_compute. Qed.

Lemma lobby_s2 : sockets Demo.lobby !! "s2" = Some unauthenticated.
Proof. by vm_compute. Qed.

Lemma lobby_users_bob : Users Demo.lobby !! "b2" = Some Demo.bob.
Proof. by vm_compute. Qed.

Lemma lobby_registry :
  connectedUsers Demo.lobby !! "s1" = Some "a1"
  ∧ connectedUsers Demo.lobby !! "s2" = None.
Proof. by vm_compute. Qed.

(** Alice says "hi" at time 30. *)
Lemma lobby_hi :
  step Demo.jwt (Demo.at_ 30 "m9") (send_message "s1" (Demo.say "hi")) Demo.lobby
  = (with_Messages (λ l, l ++ [mkMessage "m9" "a1" "alice" "hi" 30]) Demo.lobby,
     [MessageSaved (mkMessage "m9" "a1" "alice" "hi" 30);
      Emit (dom (sockets Demo.lobby))
        (new_message (mkMessage "m9" "a1" "alice" "hi" 30))]).
Proof. eapply step_send_accepted; [apply lobby_s1|done|done]. Qed.

Lemma send_message_persists_then_broadcasts_witness :
  consistent Demo.lobby
  ∧ step Demo.jwt (Demo.at_ 30 "m9") (send_message "s1" (Demo.say "hi")) Demo.lobby
    = (with_Messages (λ l, l ++ [mkMessage "m9" "a1" "alice" "hi" 30]) Demo.lobby,
       [MessageSaved (mkMessage "m9" "a1" "alice" "hi" 30);
        Emit (dom (sockets Demo.lobby))
          (new_message (mkMessage "m9" "a1" "alice" "hi" 30))]).
Proof.
  split; [exact lobby_consistent|].
  refine (proj2 (proj2 (send_message_persists_then_broadcasts Demo.jwt
            (Demo.at_ 30 "m9") "s1" _ "a1" (Demo.say "hi") Demo.lobby
            lobby_consistent lobby_s1 eq_refl))
          "hi" "alice" eq_refl eq_refl _ _ eq_refl); discriminate.
Defined.

(** The socket that never authenticated receives all three. *)
Lemma broadcasts_reach_every_socket_witness :
  connectedUsers Demo2.hall !! "s2" = None
  ∧ new_message (mkMessage "m9" "a1" "alice" "hi" 30)
    ∈ received "s2"
        (step Demo.jwt (Demo.at_ 30 "m9") (send_message "s1" (Demo.say "hi"))
           Demo2.hall).2
  ∧ user_joined "bob"
    ∈ received "s2"
        (step Demo.jwt (Demo.at_ 30 "m9") (authenticate "s3" "tok-bob")
           Demo2.hall).2
  ∧ user_left "alice"
    ∈ received "s2"
        (step Demo.jwt (Demo.at_ 30 "m9") (disconnect "s1") Demo2.hall).2.
Proof.
  assert (Hs2 : is_Some (sockets Demo2.hall !! "s2"))
    by (exists unauthenticated; by vm_compute).
  assert (Hs1 : sockets Demo2.hall !! "s1"
                = Some (mkSocket (Some "a1") (Some "alice"))) by by vm_compute.
  assert (Hs3 : sockets Demo2.hall !! "s3" = Some unauthenticated)
    by by vm_compute.
  assert (Hbob : Users Demo2.hall !! "b2" = Some Demo.bob) by by vm_compute.
  destruct (broadcasts_reach_every_socket Demo.jwt (Demo.at_ 30 "m9")
              Demo2.hall "s2" Hs2) as (Hmsg & Hjoin & Hleft & _).
  split; [by vm_compute|]. split; [|split].
  - exact (Hmsg "s1" _ "a1" (Demo.say "hi") _ Hs1 eq_refl eq_refl).
  - exact (Hjoin "s3" _ "tok-bob" (mkClaims "b2" "bob") Demo.bob Hs3 eq_refl
             eq_refl Hbob eq_refl eq_refl).
  - apply (Hleft "s1" _ "a1" "alice" Hs1 eq_refl eq_refl). discriminate.
Defined.

Lemma authenticate_failure_closes_witness :
  Demo.jwt "tok-forged" = None
  ∧ (∃ msg,
       received "s2"
         (step Demo.jwt (Demo.at_ 30 "") (authenticate "s2" "tok-forged")
            Demo.lobby).2
       = [auth_error msg])
  ∧ sockets
      (step Demo.jwt (Demo.at_ 30 "") (authenticate "s2" "tok-forged") Demo.lobby).1
    !! "s2" = None.
Proof.
  split; [reflexivity|].
  destruct (authenticate_failure_closes Demo.jwt (Demo.at_ 30 "") "s2"
              unauthenticated "tok-forged" Demo.lobby
              lobby_consistent lobby_s2 (or_introl eq_refl))
    as (Hmsg & _ & _ & Hgone & _).
  split; [exact Hmsg|exact Hgone].
Defined.

Lemma unauthenticated_events_rejected_witness :
  step Demo.jwt (Demo.at_ 30 "m9") (send_message "s2" (Demo.say "hi")) Demo.lobby
    = (Demo.lobby, [Emit {["s2"]} (error "Не авторизован")])
  ∧ step Demo.jwt (Demo.at_ 30 "m9") (typing "s2") Demo.lobby = (Demo.lobby, []).
Proof.
  exact (unauthenticated_events_rejected Demo.jwt (Demo.at_ 30 "m9") "s2"
           unauthenticated (Demo.say "hi") Demo.lobby lobby_s2 eq_refl).
Defined.

Lemma disconnect_announces_then_forgets_witness :
  (step Demo.jwt (Demo.at_ 30 "") (disconnect "s1") Demo.lobby).2
    = [Closed "s1";
       Emit (dom (delete "s1" (sockets Demo.lobby))) (user_left "alice");
       RegistryDelete "s1"]
  ∧ connectedUsers (step Demo.jwt (Demo.at_ 30 "") (disconnect "s1") Demo.lobby).1
    !! "s1" = None.
Proof.
  destruct (disconnect_announces_then_forgets Demo.jwt (Demo.at_ 30 "") "s1" _
              Demo.lobby lobby_consistent lobby_s1)
    as (_ & _ & Hgone & _ & Hleft & _).
  split; [|exact Hgone]. exact (Hleft "a1" "alice" eq_refl eq_refl).
Defined.

(** Bob authenticates on the second connection of the lobby. *)
Lemma authenticate_history_then_authenticated_witness :
  received "s2"
    (step Demo.jwt (Demo.at_ 30 "") (authenticate "s2" "tok-bob") Demo.skewed).2
  = [message_history (reverse (recent 50 (Messages Demo.skewed)));
     authenticated "bob"; user_joined "bob"].
Proof.
  refine (proj1 (authenticate_history_then_authenticated Demo.jwt
            (Demo.at_ 30 "") "s2" "tok-bob" unauthenticated
            (mkClaims "b2" "bob") Demo.bob Demo.skewed _ eq_refl eq_refl _
            eq_refl eq_refl)); by vm_compute.
Defined.

Lemma history_is_latest_by_timestamp_witness :
  length (reverse (recent 50 (Messages Demo.sixty))) = 50%nat
  ∧ StronglySorted no_later (reverse (recent 50 (Messages Demo.sixty))).
Proof.
  destruct (history_is_latest_by_timestamp Demo.jwt (Demo.at_ 100 "") "s1"
              "tok-bob" unauthenticated (mkClaims "b2" "bob") Demo.bob
              Demo.sixty ltac:(by vm_compute) eq_refl eq_refl
              ltac:(by vm_compute) eq_refl eq_refl)
    as (_ & Hlen & Hsorted & _).
  split; [exact Hlen|exact Hsorted].
Defined.

Lemma second_authenticate_runs_again_witness :
  connectedUsers Demo.lobby !! "s1" = Some "a1"
  ∧ connectedUsers
      (step Demo.jwt (Demo.at_ 30 "") (authenticate "s1" "tok-bob") Demo.lobby).1
    !! "s1" = Some "b2".
Proof.
  split; [exact (proj1 lobby_registry)|].
  exact (proj1 (second_authenticate_runs_again Demo.jwt (Demo.at_ 30 "") "s1"
                  "tok-bob" _ (mkClaims "b2" "bob") Demo.bob Demo.lobby
                  lobby_s1 eq_refl eq_refl lobby_users_bob eq_refl eq_refl
                  "a1" (proj1 lobby_registry))).
Defined.

Lemma user_joined_reaches_caller_too_witness :
  user_joined "bob"
  ∈ received "s2"
      (step Demo.jwt (Demo.at_ 30 "") (authenticate "s2" "tok-bob") Demo.lobby).2.
Proof.
  destruct (user_joined_reaches_caller_too Demo.jwt (Demo.at_ 30 "") "s2"
              "tok-bob" unauthenticated (mkClaims "b2" "bob") Demo.bob
              Demo.lobby lobby_s2 eq_refl eq_refl lobby_users_bob
              eq_refl eq_refl)
    as (_ & _ & Hcaller & _).
  exact Hcaller.
Defined.

Lemma send_message_text_is_not_trimmed_witness :
  step Demo.jwt (Demo.at_ 30 "m9") (send_message "s1" (Demo.say "  hi ")) Demo.lobby
  = (with_Messages (λ l, l ++ [mkMessage "m9" "a1" "alice" "  hi " 30]) Demo.lobby,
     [MessageSaved (mkMessage "m9" "a1" "alice" "  hi " 30);
      Emit (dom (sockets Demo.lobby))
        (new_message (mkMessage "m9" "a1" "alice" "  hi " 30))]).
Proof.
  refine (proj2 (send_message_text_is_not_trimmed Demo.jwt
            (Demo.at_ 30 "m9") "s1" "a1" "alice" Demo.lobby lobby_s1 _)
          "  hi " _ eq_refl); discriminate.
Defined.

(** ** Where the code departs from the specification *)

(** C2 as stated fails: the caller gets "message_history" first and
    "authenticated" second. Bob authenticates on the second connection,
    after Alice's two messages. *)
Lemma authenticated_does_not_precede_history :
  Demo.jwt "tok-bob" = Some (mkClaims "b2" "bob")
  ∧ received "s2"
      (step Demo.jwt (Demo.at_ 30 "") (authenticate "s2" "tok-bob") Demo.burst).2
    = [message_history [Demo.second 20; Demo.first 20];
       authenticated "bob"; user_joined "bob"]
  ∧ before is_authenticated is_message_history
      (received "s2"
         (step Demo.jwt (Demo.at_ 30 "") (authenticate "s2" "tok-bob")
            Demo.burst).2)
    = false.
Proof. vm_compute. by repeat split. Qed.

(** C3 as stated fails: the history follows the timestamps, not the
    insertion order. Alice's first message was stored before her second,
    and the history lists the second before the first, both when the clock
    was set back between the two (whatever the sort does with equal keys)
    and when the two fall in one millisecond (with the stable sort). *)
Lemma history_differs_from_storage_order :
  (Messages Demo.skewed = [Demo.first 21; Demo.second 20]
   ∧ received "s2"
       (step Demo.jwt (Demo.at_ 30 "") (authenticate "s2" "tok-bob") Demo.skewed).2
     = [message_history [Demo.second 20; Demo.first 21];
        authenticated "bob"; user_joined "bob"])
  ∧ (Messages Demo.burst = [Demo.first 20; Demo.second 20]
     ∧ received "s2"
         (step Demo.jwt (Demo.at_ 30 "") (authenticate "s2" "tok-bob") Demo.burst).2
       = [message_history [Demo.second 20; Demo.first 20];
          authenticated "bob"; user_joined "bob"])
  ∧ reverse (recent 50 (Messages Demo.skewed))
    ≠ drop (length (Messages Demo.skewed) - 50)%nat (Messages Demo.skewed)
  ∧ reverse (recent 50 (Messages Demo.burst))
    ≠ drop (length (Messages Demo.burst) - 50)%nat (Messages Demo.burst).
Proof. vm_compute. by repeat split. Qed.

(** C4 as stated fails: a text of three spaces is stored and broadcast as
    it is, and no "error" is sent. *)
Lemma whitespace_only_text_is_persisted :
  Messages
      (step Demo.jwt (Demo.at_ 30 "m9") (send_message "s1" (Demo.say "   "))
         Demo.lobby).1
    = [mkMessage "m9" "a1" "alice" "   " 30]
  ∧ received "s1"
      (step Demo.jwt (Demo.at_ 30 "m9") (send_message "s1" (Demo.say "   "))
         Demo.lobby).2
    = [new_message (mkMessage "m9" "a1" "alice" "   " 30)].
Proof. vm_compute. by repeat split. Qed.

(** C5 as stated fails: on the connection that is authenticated as Alice,
    an "authenticate" with Bob's token overwrites the registry entry,
    replays the history and broadcasts "user_joined" once more. *)
Lemma second_authenticate_is_processed :
  connectedUsers Demo.lobby !! "s1" = Some "a1"
  ∧ connectedUsers
      (step Demo.jwt (Demo.at_ 30 "") (authenticate "s1" "tok-bob") Demo.lobby).1
    !! "s1" = Some "b2"
  ∧ received "s1"
      (step Demo.jwt (Demo.at_ 30 "") (authenticate "s1" "tok-bob") Demo.lobby).2
    = [message_history []; authenticated "bob"; user_joined "bob"]
  ∧ received "s2"
      (step Demo.jwt (Demo.at_ 30 "") (authenticate "s1" "tok-bob") Demo.lobby).2
    = [user_joined "bob"].
Proof. vm_compute. by repeat split. Qed.

(** C6 as stated fails: the caller is among the recipients of its own
    "user_joined". *)
Lemma user_joined_is_sent_to_the_caller :
  ¬ (user_joined "bob"
     ∉ received "s2"
         (step Demo.jwt (Demo.at_ 30 "") (authenticate "s2" "tok-bob")
            Demo.lobby).2).
Proof. intros Hnot. apply Hnot. vm_compute. do 2 right. left. Qed.

(** C7 as stated fails: a "typing" on a connection that is not
    authenticated is dropped without an "error". *)
Lemma unauthenticated_typing_gets_no_error :
  sockets Demo.lobby !! "s2" = Some unauthenticated
  ∧ (step Demo.jwt (Demo.at_ 30 "") (typing "s2") Demo.lobby).2 = []
  ∧ emitted is_error (step Demo.jwt (Demo.at_ 30 "") (typing "s2") Demo.lobby).2
    = 0%nat.
Proof. vm_compute. by repeat split. Qed.

(** C8 as stated fails on the order: "user_left" is sent before the
    registry entry is deleted, not after. *)
Lemma user_left_precedes_registry_removal :
  before (deletes "s1") (emits is_user_left)
    (step Demo.jwt (Demo.at_ 30 "") (disconnect "s1") Demo.lobby).2 = false
  ∧ before (emits is_user_left) (deletes "s1")
      (step Demo.jwt (Demo.at_ 30 "") (disconnect "s1") Demo.lobby).2 = true.
Proof. vm_compute. by repeat split. Qed.

(** ** Scenarios of the specification *)

(** Sixty stored messages: the history is the last fifty, oldest first. *)
Example history_limit :
  received "s1"
    (step Demo.jwt (Demo.at_ 100 "") (authenticate "s1" "tok-alice") Demo.sixty).2
  = [message_history (map Demo.nth_message (seq 11 50));
     authenticated "alice"; user_joined "alice"].
Proof. by vm_compute. Qed.

(** A and B authenticate, A says "hi": both receive it; A leaves: B is told. *)
Example hi_and_goodbye :
  let s := after Demo.jwt [(Demo.at_ 13 "", authenticate "s2" "tok-bob")] Demo.lobby in
  let said := step Demo.jwt (Demo.at_ 30 "m9") (send_message "s1" (Demo.say "hi")) s in
  let left := step Demo.jwt (Demo.at_ 31 "") (disconnect "s1") said.1 in
  received "s1" said.2 = [new_message (mkMessage "m9" "a1" "alice" "hi" 30)]
  ∧ received "s2" said.2 = [new_message (mkMessage "m9" "a1" "alice" "hi" 30)]
  ∧ received "s2" left.2 = [user_left "alice"]
  ∧ received "s1" left.2 = []
  ∧ step Demo.jwt (Demo.at_ 32 "") (disconnect "s1") left.1 = (left.1, []).
Proof. vm_compute. by repeat split. Qed.

(** * Further properties of the engine *)

Section More.

Variable jwt_verify : string → option Claims.

Abbreviation step := (step jwt_verify).

(** X1. A "typing" on an authenticated connection changes nothing and
    sends one "user_typing", with the sender's display name, to every
    other connected socket; the sender itself receives nothing. *)
Theorem typing_relayed_to_others e sid sock uid n s :
  sockets s !! sid = Some sock → userId sock = Some uid →
  nickname sock = Some n →
  step e (typing sid) s =
    (s, [Emit (dom (sockets s) ∖ {[sid]}) (user_typing n)])
  ∧ received sid (step e (typing sid) s).2 = []
  ∧ (∀ k, k ≠ sid → is_Some (sockets s !! k) →
          received k (step e (typing sid) s).2 = [user_typing n]).
Proof.
  intros Hs Hu Hn.
  rewrite (step_typing_authenticated _ _ _ _ _ _ Hs Hu).
  unfold nick. rewrite Hn. cbn. split; [done|]. split.
  - unfold received. cbn. by rewrite decide_False by set_solver.
  - intros k Hk Hin. apply elem_of_dom in Hin.
    unfold received. cbn. by rewrite decide_True by set_solver.
Qed.

(** X3. No event removes or rewrites a stored message: a step appends at
    most one message to the collection, only a "send_message" appends, and
    a "new_message" is on the wire exactly for the message that the same
    step stored. *)
Theorem messages_are_append_only e ev s :
  ∃ new,
    Messages (step e ev s).1 = Messages s ++ new
    ∧ (length new ≤ 1)%nat
    ∧ (new ≠ [] → ∃ sid messageData, ev = send_message sid messageData)
    ∧ (∀ m, m ∈ new ↔ MessageSaved m ∈ (step e ev s).2)
    ∧ (∀ m, m ∈ new ↔ ∃ to, Emit to (new_message m) ∈ (step e ev s).2).
Proof.
  destruct ev; exec.
  all: repeat case_match; simplify_eq; cbn.
  all: first
    [ eexists [_]; split; [reflexivity|]
    | exists []; split; [by rewrite app_nil_r|] ].
  all: split; [cbn; lia|]; split; [by eauto|].
  all: split; intros x.
  all: repeat setoid_rewrite elem_of_cons; repeat setoid_rewrite elem_of_nil.
  all: naive_solver.
Qed.

(** X4. An event of one connection leaves every other connection as it
    was: the socket fields and the registry entry of any other id are the
    same after the step, whether the event succeeds, is refused, or ends
    its own connection. *)
Theorem other_connections_untouched e ev s k :
  k ≠ subject ev →
  sockets (step e ev s).1 !! k = sockets s !! k
  ∧ connectedUsers (step e ev s).1 !! k = connectedUsers s !! k.
Proof.
  intros Hk. destruct ev; exec; cbn in Hk.
  all: repeat case_match; simplify_eq; cbn.
  all: by simplify_map_eq.
Qed.

(** X6. When the token verifies and the user exists but the store then
    fails, while saving the user or while reading the history, the registry
    entry that was just set is removed again: the caller receives one
    "auth_error" and nothing else, its connection is closed, and the other
    connected sockets receive a "user_left" for a user they were never told
    had joined. *)
Theorem authenticate_store_failure e sid sock token decoded user s :
  sockets s !! sid = Some sock → jwt_verify token = Some decoded →
  db_find_user e = true → Users s !! c_id decoded = Some user →
  db_save_user e = false ∨ db_find_messages e = false →
  received sid (step e (authenticate sid token) s).2
    = [auth_error "Недействительный токен"]
  ∧ sockets (step e (authenticate sid token) s).1 = delete sid (sockets s)
  ∧ connectedUsers (step e (authenticate sid token) s).1
    = delete sid (connectedUsers s)
  ∧ emitted is_authenticated (step e (authenticate sid token) s).2 = 0%nat
  ∧ emitted is_user_joined (step e (authenticate sid token) s).2 = 0%nat
  ∧ before (sets sid (c_id decoded)) (deletes sid)
      (step e (authenticate sid token) s).2 = true
  ∧ (∀ k, k ≠ sid → is_Some (sockets s !! k) →
          received k (step e (authenticate sid token) s).2
          = [user_left (u_nickname user)]).
Proof.
  intros Hs Hv Hf Hu Hfail. exec.
  rewrite Hs, Hv, Hf. cbn. rewrite Hu. cbn.
  destruct (db_save_user e) eqn:Hsave; cbn.
  - destruct Hfail as [?|Hfind]; [done|]. rewrite Hfind. cbn.
    rewrite lookup_insert_eq. cbn.
    rewrite !delete_insert_eq, ?dom_delete_L.
    unfold received, emitted, sets, deletes. cbn.
    rewrite !bool_decide_eq_true_2 by done. cbn.
    rewrite decide_True by set_solver. rewrite decide_False by set_solver.
    repeat split; try done.
    intros k Hk Hin. apply elem_of_dom in Hin.
    rewrite decide_False by set_solver. by rewrite decide_True by set_solver.
  - rewrite lookup_insert_eq. cbn.
    rewrite !delete_insert_eq, ?dom_delete_L.
    unfold received, emitted, sets, deletes. cbn.
    rewrite !bool_decide_eq_true_2 by done. cbn.
    rewrite decide_True by set_solver. rewrite decide_False by set_solver.
    repeat split; try done.
    intros k Hk Hin. apply elem_of_dom in Hin.
    rewrite decide_False by set_solver. by rewrite decide_True by set_solver.
Qed.

(** X7. The handlers never create, delete or rename a user. A step
    leaves the User collection as it is, unless it is an "authenticate"
    whose token verifies for a stored user: then that user's [lastSeen]
    becomes the time of the step and nothing else changes. *)
Theorem users_only_touched_by_authenticate e ev s :
  (Users (step e ev s).1 = Users s
   ∨ ∃ sid token decoded user,
       ev = authenticate sid token ∧ jwt_verify token = Some decoded
       ∧ Users s !! c_id decoded = Some user
       ∧ Users (step e ev s).1 = <[c_id decoded := touch e user]> (Users s))
  ∧ dom (Users (step e ev s).1) = dom (Users s)
  ∧ (∀ id, u_nickname <$> Users (step e ev s).1 !! id
           = u_nickname <$> Users s !! id).
Proof.
  assert (Hcases :
    Users (step e ev s).1 = Users s
    ∨ ∃ sid token decoded user,
        ev = authenticate sid token ∧ jwt_verify token = Some decoded
        ∧ Users s !! c_id decoded = Some user
        ∧ Users (step e ev s).1 = <[c_id decoded := touch e user]> (Users s)).
  { destruct ev; exec.
    all: repeat case_match; simplify_eq; cbn.
    all: first [by left | right; by eauto 10]. }
  split; [done|].
  destruct Hcases as [->|(sid & token & decoded & user & _ & _ & Hu & ->)].
  { done. }
  split.
  - rewrite dom_insert_L. apply elem_of_dom_2 in Hu. set_solver.
  - intros id. destruct (decide (id = c_id decoded)) as [->|Hne].
    + by rewrite lookup_insert_eq, Hu.
    + by rewrite lookup_insert_ne.
Qed.

(** X8. The replies "error", "auth_error", "message_history" and
    "authenticated" are addressed to the connection of the event alone:
    no handler sends one of them to another socket. *)
Theorem replies_go_to_the_caller_alone e ev s to evt :
  Emit to evt ∈ (step e ev s).2 → is_reply evt = true →
  to = {[subject ev]}.
Proof.
  destruct ev; exec.
  all: repeat case_match; simplify_eq; cbn.
  all: rewrite ?elem_of_cons, ?elem_of_nil; intros Hin.
  all: repeat (destruct Hin as [Hin|Hin]); simplify_eq; try done.
Qed.

(** X14. An "authenticate" with a token that does not verify, on a
    connection that is authenticated, logs it out: after the "auth_error"
    the connection is closed, the other connected sockets are sent its
    "user_left", and its registry entry is deleted. *)
Theorem bad_token_logs_out e sid sock uid n token s :
  sockets s !! sid = Some sock → userId sock = Some uid →
  nickname sock = Some n → jwt_verify token = None →
  step e (authenticate sid token) s =
    (with_connectedUsers (delete sid) (with_sockets (delete sid) s),
     [Emit {[sid]} (auth_error "Недействительный токен");
      Closed sid;
      Emit (dom (sockets s) ∖ {[sid]}) (user_left n);
      RegistryDelete sid]).
Proof.
  intros Hs Hu Hn Hv.
  rewrite (step_authenticate_invalid _ _ _ _ _ _ Hs Hv).
  rewrite (step_disconnect_authenticated _ _ _ _ _ _ Hs Hu). cbn.
  unfold nick. by rewrite Hn.
Qed.

End More.

(** ** The client and the server together *)

(** X9. The form sends nothing exactly when its input is made of white
    space only (the white space that [trim] removes, U+00A0, U+3000 and
    U+FEFF included), or when it has no socket or is not connected. What
    it does send, an authenticated connection with a working store always
    accepts: the message is stored and broadcast with the trimmed input
    as its text. *)
Theorem client_text_is_stored_trimmed jwt_verify e sid uid n s
    inputMessage has_socket connected :
  sockets s !! sid = Some (mkSocket (Some uid) (Some n)) → n ≠ "" →
  db_save_message e = true →
  (handleSendMessage inputMessage has_socket connected = None
   ↔ whitespace_only inputMessage = true ∨ has_socket = false
     ∨ connected = false)
  ∧ (∀ messageData,
       handleSendMessage inputMessage has_socket connected = Some messageData →
       messageData = md_object (Some (trim inputMessage))
       ∧ trim inputMessage ≠ ""
       ∧ step jwt_verify e (send_message sid messageData) s =
           (with_Messages
              (λ l, l ++ [mkMessage (fresh_id e) uid n (trim inputMessage) (now e)]) s,
            [MessageSaved (mkMessage (fresh_id e) uid n (trim inputMessage) (now e));
             Emit (dom (sockets s))
               (new_message
                  (mkMessage (fresh_id e) uid n (trim inputMessage) (now e)))])).
Proof.
  intros Hs Hn He. split.
  - unfold handleSendMessage. rewrite <- trim_empty_iff.
    case_bool_decide; destruct has_socket, connected; cbn; naive_solver.
  - intros messageData Hsend.
    apply handleSendMessage_sends in Hsend as [-> Hne].
    split; [done|]. split; [done|].
    eapply step_send_accepted; [done..|]. by apply accepted_text.
Qed.

(** * The routes *)

Lemma split_on_whole sep s : occurs sep s = false → split_on sep s = [s].
Proof.
  induction s as [|a s IH]; cbn; [done|].
  intros [Ha Hs]%orb_false_elim. apply bool_decide_eq_false in Ha.
  case_decide; [done|]. by rewrite IH.
Qed.

Lemma append_cons a s1 s2 : (String a s1 ++ s2)%string = String a (s1 ++ s2)%string.
Proof. reflexivity. Qed.

Lemma append_empty_l s : ("" ++ s)%string = s.
Proof. reflexivity. Qed.

Lemma append_empty_r s : (s ++ "")%string = s.
Proof. induction s as [|a s IH]; [done|]. by rewrite append_cons, IH. Qed.

Lemma split_on_cut sep s1 s2 :
  occurs sep s1 = false →
  split_on sep (s1 ++ String sep s2)%string = s1 :: split_on sep s2.
Proof.
  induction s1 as [|a s1 IH]; cbn.
  - intros _. rewrite append_empty_l. cbn. by case_decide.
  - intros [Ha Hs]%orb_false_elim. apply bool_decide_eq_false in Ha.
    rewrite append_cons. cbn. case_decide; [done|]. by rewrite IH.
Qed.

Lemma split_on_nonempty sep s : split_on sep s ≠ [].
Proof.
  destruct s as [|a s]; cbn; [done|].
  case_decide; [done|]. by destruct (split_on sep s).
Qed.

Section Gate.

Variable jwt_verify : string → option Claims.
Variable parseInt : option string → option Z.
Variable limit_negative : Z → list Message → list Message.

Abbreviation gate := (authenticateToken jwt_verify).
Abbreviation respond := (handle jwt_verify parseInt limit_negative).
Abbreviation messages_route := (get_messages jwt_verify parseInt limit_negative).

(** X11. The middleware reads the token from the second field of the
    header, cut at single spaces, and looks at nothing else: whatever the
    first field is ("Bearer" or any other word, even none), and whatever
    follows the second, the request goes on exactly when that field
    verifies, as the user of the token, and is answered 403 otherwise. *)
Theorem token_is_second_field scheme token rest query :
  occurs " " scheme = false → occurs " " token = false → token ≠ "" →
  rest = "" ∨ first_char rest = Some " "%char →
  gate
    (mkRequest (Some (scheme ++ " " ++ token ++ rest)%string) query)
  = match jwt_verify token with
    | Some user => inr user
    | None => inl (status_json 403 "Недействительный токен")
    end.
Proof.
  intros Hscheme Htoken Hne Hrest.
  unfold authenticateToken, header_token. cbn.
  rewrite decide_False by by destruct scheme.
  change (" " ++ token ++ rest)%string with (String " " (token ++ rest)%string).
  rewrite split_on_cut by done. cbn.
  assert (Hfield : head (split_on " " (token ++ rest)%string) = Some token).
  { destruct Hrest as [->|Hrest].
    - rewrite append_empty_r. by rewrite split_on_whole.
    - destruct rest as [|c rest]; [done|]. cbn in Hrest. injection Hrest as ->.
      by rewrite split_on_cut. }
  destruct (split_on " " (token ++ rest)%string) as [|t ts]; [done|].
  cbn in Hfield. injection Hfield as ->. cbn.
  by rewrite decide_False.
Qed.

(** X12. The two routes behind the middleware give out nothing without a
    token that verifies. A request with no Authorization header, or with a
    header in one piece, is answered 401 whatever the store holds; and when
    a message list or a user record is returned, the second field of the
    header was a token that [jwt.verify] accepted. *)
Theorem no_data_without_verified_token e route req s :
  route ≠ GET_health →
  (authorization req = None
   ∨ (∃ h, authorization req = Some h ∧ occurs " " h = false) →
   respond e route req s = status_json 401 "Токен не предоставлен")
  ∧ (discloses (respond e route req s) = true →
     ∃ h token user,
       authorization req = Some h
       ∧ split_on " " h !! 1%nat = Some token ∧ token ≠ ""
       ∧ jwt_verify token = Some user).
Proof.
  intros Hroute. split.
  - intros Hmissing.
    assert (Hgate : gate req
                    = inl (status_json 401 "Токен не предоставлен")).
    { unfold authenticateToken, header_token.
      destruct Hmissing as [->|(h & -> & Hh)]; [done|].
      case_decide; [by rewrite decide_True|].
      by rewrite split_on_whole. }
    destruct route; [| |done]; cbn.
    + unfold get_messages. by rewrite Hgate.
    + unfold get_user. by rewrite Hgate.
  - assert (Hgate : ∀ user, gate req = inr user →
              ∃ h token, authorization req = Some h
                ∧ split_on " " h !! 1%nat = Some token ∧ token ≠ ""
                ∧ jwt_verify token = Some user).
    { intros user.
      unfold authenticateToken, header_token.
      destruct (authorization req) as [h|]; [|done].
      case_decide; [by rewrite decide_True|].
      destruct (split_on " " h !! 1%nat) as [token|] eqn:Hfield; [|done].
      case_decide; [done|].
      destruct (jwt_verify token) as [u|] eqn:Hv; [|done].
      intros [= <-]. exists h, token. by repeat split. }
    destruct route; [| |done]; cbn.
    + unfold get_messages.
      destruct (gate req) as [r|user] eqn:Ha.
      * unfold authenticateToken in Ha.
        repeat case_match; by simplify_eq.
      * intros _. destruct (Hgate user eq_refl) as (h & token & ?).
        exists h, token, user. tauto.
    + unfold get_user.
      destruct (gate req) as [r|user] eqn:Ha.
      * unfold authenticateToken in Ha.
        repeat case_match; by simplify_eq.
      * intros _. destruct (Hgate user eq_refl) as (h & token & ?).
        exists h, token, user. tauto.
Qed.

(** X13. For a request that passes the middleware, on a store that
    answers: without a [limit], or with one that parses to [NaN] or to 0,
    /api/messages returns the list that a socket is sent as
    "message_history" when it authenticates in the same state; with a
    positive [limit] it returns that many of the latest messages at most,
    by non-decreasing timestamp. *)
Theorem rest_history_is_socket_history e req user s :
  gate req = inr user → db_find_messages e = true →
  (parseInt (query_limit req) = None ∨ parseInt (query_limit req) = Some 0 →
   messages_route e req s = messages_json (reverse (recent 50 (Messages s)))
   ∧ ∀ e' sid sock token decoded u,
       sockets s !! sid = Some sock → jwt_verify token = Some decoded →
       db_find_user e' = true → Users s !! c_id decoded = Some u →
       db_save_user e' = true → db_find_messages e' = true →
       ∃ history,
         messages_route e req s = messages_json history
         ∧ Emit {[sid]} (message_history history)
           ∈ (step jwt_verify e' (authenticate sid token) s).2)
  ∧ (∀ n, parseInt (query_limit req) = Some n → 0 < n →
       ∃ body,
         messages_route e req s = messages_json body
         ∧ body = reverse (recent (Z.to_nat n) (Messages s))
         ∧ length body = Nat.min (Z.to_nat n) (length (Messages s))
         ∧ StronglySorted no_later body).
Proof.
  intros Ha He.
  unfold get_messages, limit_of, find_limited.
  rewrite Ha, He. split.
  - intros Hdefault.
    assert (Hbody :
      messages_json
        (reverse
           (if 0 <? match parseInt (query_limit req) with
                    | Some n => if n =? 0 then 50 else n
                    | None => 50
                    end
            then recent
                   (Z.to_nat match parseInt (query_limit req) with
                             | Some n => if n =? 0 then 50 else n
                             | None => 50
                             end) (Messages s)
            else limit_negative
                   match parseInt (query_limit req) with
                   | Some n => if n =? 0 then 50 else n
                   | None => 50
                   end (sort_desc (Messages s))))
      = messages_json (reverse (recent 50 (Messages s)))).
    { by destruct Hdefault as [->| ->]. }
    rewrite Hbody. split; [done|].
    intros e' sid sock token decoded u Hs Hv Hf Hu Hsave Hfind.
    exists (reverse (recent 50 (Messages s))). split; [done|].
    rewrite (step_authenticate_ok jwt_verify e' sid sock token decoded u s)
      by done.
    cbn. do 2 right. left.
  - intros n Hn Hpos. rewrite Hn.
    assert ((n =? 0) = false) as -> by lia.
    assert ((0 <? n) = true) as -> by lia.
    eexists. split; [done|]. split; [done|].
    split; [apply history_length|apply history_sorted].
Qed.

End Gate.

(** * The further properties, on the small world *)

Lemma typing_relayed_to_others_witness :
  received "s2" (step Demo.jwt (Demo.at_ 30 "") (typing "s1") Demo.lobby).2
  = [user_typing "alice"]
  ∧ received "s1" (step Demo.jwt (Demo.at_ 30 "") (typing "s1") Demo.lobby).2
    = [].
Proof.
  destruct (typing_relayed_to_others Demo.jwt (Demo.at_ 30 "") "s1" _ "a1"
              "alice" Demo.lobby lobby_s1 eq_refl eq_refl)
    as (_ & Hself & Hothers).
  split; [|exact Hself].
  apply Hothers; [discriminate|]. rewrite lobby_s2. eauto.
Defined.

Lemma other_connections_untouched_witness :
  sockets (step Demo.jwt (Demo.at_ 30 "") (disconnect "s1") Demo.lobby).1 !! "s2"
  = sockets Demo.lobby !! "s2"
  ∧ connectedUsers
      (step Demo.jwt (Demo.at_ 30 "") (disconnect "s1") Demo.lobby).1 !! "s2"
    = connectedUsers Demo.lobby !! "s2".
Proof.
  apply (other_connections_untouched Demo.jwt (Demo.at_ 30 "")
           (disconnect "s1") Demo.lobby "s2").
  discriminate.
Defined.

Lemma authenticate_store_failure_witness :
  received "s2"
    (step Demo.jwt (Demo2.save_fails 30) (authenticate "s2" "tok-bob")
       Demo.lobby).2
  = [auth_error "Недействительный токен"]
  ∧ received "s1"
      (step Demo.jwt (Demo2.save_fails 30) (authenticate "s2" "tok-bob")
         Demo.lobby).2
    = [user_left "bob"].
Proof.
  destruct (authenticate_store_failure Demo.jwt (Demo2.save_fails 30) "s2"
              unauthenticated "tok-bob" (mkClaims "b2" "bob") Demo.bob
              Demo.lobby lobby_s2 eq_refl eq_refl lobby_users_bob
              (or_introl eq_refl))
    as (Hcaller & _ & _ & _ & _ & _ & Hothers).
  split; [exact Hcaller|].
  apply Hothers; [discriminate|]. rewrite lobby_s1. eauto.
Defined.

Lemma replies_go_to_the_caller_alone_witness :
  ({["s2"]} : gset string) = {[subject (send_message "s2" (Demo.say "hi"))]}.
Proof.
  apply (replies_go_to_the_caller_alone Demo.jwt (Demo.at_ 30 "m9")
           (send_message "s2" (Demo.say "hi")) Demo.lobby {["s2"]}
           (error "Не авторизован")); [|reflexivity].
  rewrite (step_send_unauthenticated Demo.jwt _ _ _ _ _ lobby_s2 eq_refl).
  left.
Defined.

(** The input is "hi" between a no-break space (U+00A0) and an
    ideographic space (U+3000). *)
Lemma client_text_is_stored_trimmed_witness :
  handleSendMessage
    (String "194" (String "160" ("hi" ++ String "227" (String "128" (String "128" "")))))%string
    true true
  = Some (Demo.say "hi")
  ∧ handleSendMessage (String "194" (String "160" "")) true true = None.
Proof.
  split.
  - destruct (client_text_is_stored_trimmed Demo.jwt (Demo.at_ 30 "m9") "s1"
                "a1" "alice" Demo.lobby
                (String "194" (String "160"
                   ("hi" ++ String "227" (String "128" (String "128" "")))))%string
                true true lobby_s1 ltac:(discriminate) eq_refl) as [_ Hsent].
    destruct (handleSendMessage _ true true) as [d|] eqn:Hd; [|by vm_compute in Hd].
    destruct (Hsent d eq_refl) as (-> & _ & _). by vm_compute.
  - apply (client_text_is_stored_trimmed Demo.jwt (Demo.at_ 30 "m9") "s1"
             "a1" "alice" Demo.lobby (String "194" (String "160" ""))
             true true lobby_s1 ltac:(discriminate) eq_refl).
    left. by vm_compute.
Defined.

Lemma token_is_second_field_witness :
  authenticateToken Demo.jwt (mkRequest (Some "Token tok-alice now") None)
  = inr (mkClaims "a1" "alice").
Proof.
  exact (token_is_second_field Demo.jwt "Token" "tok-alice" " now" None
           eq_refl eq_refl ltac:(discriminate) (or_intror eq_refl)).
Defined.

Lemma no_data_without_verified_token_witness :
  handle Demo.jwt Demo2.parseInt Demo2.limit_negative (Demo.at_ 30 "")
    GET_messages (mkRequest (Some "tok-alice") None) Demo.burst
  = status_json 401 "Токен не предоставлен".
Proof.
  refine (proj1 (no_data_without_verified_token Demo.jwt Demo2.parseInt
                   Demo2.limit_negative (Demo.at_ 30 "") GET_messages
                   (mkRequest (Some "tok-alice") None) Demo.burst _) _).
  - discriminate.
  - right. by exists "tok-alice".
Defined.

Lemma rest_history_is_socket_history_witness :
  get_messages Demo.jwt Demo2.parseInt Demo2.limit_negative (Demo.at_ 30 "")
    (mkRequest (Some "Bearer tok-alice") (Some "0")) Demo.sixty
  = messages_json (reverse (recent 50 (Messages Demo.sixty))).
Proof.
  refine (proj1 (proj1 (rest_history_is_socket_history Demo.jwt Demo2.parseInt
            Demo2.limit_negative (Demo.at_ 30 "")
            (mkRequest (Some "Bearer tok-alice") (Some "0"))
            (mkClaims "a1" "alice") Demo.sixty eq_refl eq_refl)
          (or_intror eq_refl))).
Defined.

Lemma bad_token_logs_out_witness :
  step Demo.jwt (Demo.at_ 30 "") (authenticate "s1" "tok-forged") Demo.lobby
  = (with_connectedUsers (delete "s1") (with_sockets (delete "s1") Demo.lobby),
     [Emit {["s1"]} (auth_error "Недействительный токен");
      Closed "s1";
      Emit (dom (sockets Demo.lobby) ∖ {["s1"]}) (user_left "alice");
      RegistryDelete "s1"]).
Proof.
  exact (bad_token_logs_out Demo.jwt (Demo.at_ 30 "") "s1" _ "a1" "alice"
           "tok-forged" Demo.lobby lobby_s1 eq_refl eq_refl eq_refl).
Defined.


(** * The "authenticate" handler across its awaits *)

Section Awaits.

Variable jwt_verify : string → option Claims.

Abbreviation step := (step jwt_verify).

(** An entry for an id without a socket stays where it is, whatever event
    comes next for another or for the same id. *)
Lemma stale_entry_stays e ev s sid uid :
  sockets s !! sid = None → connectedUsers s !! sid = Some uid →
  ev ≠ connection sid →
  sockets (step e ev s).1 !! sid = None
  ∧ connectedUsers (step e ev s).1 !! sid = Some uid.
Proof.
  intros Hs Hreg Hev.
  destruct (decide (subject ev = sid)) as [Hsub|Hsub].
  - rewrite step_absent; [by split| |by rewrite Hsub].
    intros k ->. cbn in Hsub. by subst.
  - destruct ev; exec; cbn in Hsub.
    all: repeat case_match; simplify_eq; cbn.
    all: by simplify_map_eq.
Qed.

Lemma alter_present {A} (f : A → A) (m : gmap string A) k x :
  m !! k = Some x → alter f k m = <[k := f x]> m.
Proof.
  intros Hk. apply map_eq. intros i.
  destruct (decide (i = k)) as [->|Hne].
  - by rewrite lookup_alter_eq, lookup_insert_eq, Hk.
  - by rewrite lookup_alter_ne, lookup_insert_ne.
Qed.

(** With the socket still connected, the handler from its first await on is
    the rest of the uninterrupted handler. *)
Lemma resume_authenticate_uninterrupted e sid sock token decoded s :
  sockets s !! sid = Some sock → jwt_verify token = Some decoded →
  step e (authenticate sid token) s
  = run (resume_authenticate e sid decoded) s.
Proof.
  intros Hs Hv. unfold resume_authenticate, set_identity_late. exec.
  rewrite Hs, Hv. cbn.
  destruct (db_find_user e); cbn;
    [destruct (Users s !! c_id decoded) as [user|]; cbn|].
  all: rewrite ?(alter_present _ _ _ _ Hs), ?Hs; cbn.
  all: repeat case_match; simplify_eq; try done.
  all: unfold with_Users, with_connectedUsers, with_sockets in *; cbn in *.
  all: rewrite ?(alter_present _ _ _ _ Hs) in *; by simplify_map_eq.
Qed.

(** X2. A connection that closes while its "authenticate" waits for
    [User.findById] (server.js:346) leaves an entry behind. When the
    handler goes on, for a user that exists and a store that answers, it
    sets the registry entry of the connection, though no socket of that id
    is connected any more, and announces the user to every connected
    socket; the registry then disagrees with the sockets, and no event
    that follows removes the entry. With the socket still connected, the
    handler from that point on is the rest of the uninterrupted one. *)
Theorem close_during_await_leaves_stale_entry e sid decoded user s :
  sockets s !! sid = None →
  db_find_user e = true → Users s !! c_id decoded = Some user →
  db_save_user e = true → db_find_messages e = true →
  sockets (run (resume_authenticate e sid decoded) s).1 = sockets s
  ∧ connectedUsers (run (resume_authenticate e sid decoded) s).1
    = <[sid := c_id decoded]> (connectedUsers s)
  ∧ ¬ consistent (run (resume_authenticate e sid decoded) s).1
  ∧ (∀ k, is_Some (sockets s !! k) →
          received k (run (resume_authenticate e sid decoded) s).2
          = [user_joined (u_nickname user)])
  ∧ (∀ e' ev, ev ≠ connection sid →
       sockets (step e' ev (run (resume_authenticate e sid decoded) s).1).1
         !! sid = None
       ∧ connectedUsers
           (step e' ev (run (resume_authenticate e sid decoded) s).1).1
         !! sid = Some (c_id decoded))
  ∧ (∀ s0 sock token,
       sockets s0 !! sid = Some sock → jwt_verify token = Some decoded →
       step e (authenticate sid token) s0
       = run (resume_authenticate e sid decoded) s0).
Proof.
  intros Hs Hf Hu Hsave Hfind.
  assert (Hrun : run (resume_authenticate e sid decoded) s
    = (with_Users (<[c_id decoded := touch e user]>)
         (with_connectedUsers (<[sid := c_id decoded]>) s),
       [RegistrySet sid (c_id decoded);
        UserSaved (c_id decoded) (now e);
        Emit {[sid]} (message_history (reverse (recent 50 (Messages s))));
        Emit {[sid]} (authenticated (u_nickname user));
        Emit (dom (sockets s)) (user_joined (u_nickname user))])).
  { unfold resume_authenticate, set_identity_late. exec.
    rewrite Hf. cbn. rewrite Hu, Hsave, Hfind. cbn.
    unfold with_Users, with_connectedUsers, with_sockets. cbn.
    rewrite (alter_id _ (sockets s) sid); [by destruct s|].
    intros x Hx. by rewrite Hs in Hx. }
  rewrite Hrun. cbn [fst snd].
  assert (Hstale :
    sockets (with_Users (<[c_id decoded := touch e user]>)
               (with_connectedUsers (<[sid := c_id decoded]>) s)) !! sid = None
    ∧ connectedUsers (with_Users (<[c_id decoded := touch e user]>)
               (with_connectedUsers (<[sid := c_id decoded]>) s)) !! sid
      = Some (c_id decoded)).
  { cbn. by rewrite lookup_insert_eq. }
  destruct Hstale as [Hnone Hentry].
  split; [done|]. split; [done|]. split; [|split; [|split]].
  - intros Hc. specialize (Hc sid). rewrite Hentry, Hnone in Hc. done.
  - intros k Hk. apply elem_of_dom in Hk.
    assert (k ≠ sid) by (intros ->; apply elem_of_dom in Hk as [? Hk];
                         by rewrite Hs in Hk).
    unfold received. cbn. rewrite !decide_False by set_solver.
    by rewrite decide_True.
  - intros e' ev Hev. by apply stale_entry_stays.
  - intros s0 sock token Hs0 Hv.
    by apply (resume_authenticate_uninterrupted e sid sock token decoded s0).
Qed.

(** X10. A message that is stored and broadcast between the moment the
    history query of an "authenticate" is answered (server.js:362-365)
    and the moment the handler goes on (367-371) reaches the caller before
    its "message_history": the client appends it to its list and then
    replaces the list by the history, which was read without it. The
    message is in the store and is not on the caller's screen. *)
Theorem message_during_history_query_is_lost
    e sid k sock uid messageData m nickname s :
  is_Some (sockets s !! sid) →
  sockets s !! k = Some sock → userId sock = Some uid →
  accepted e sock messageData = Some m → m ∉ Messages s →
  let sent := step e (send_message k messageData) s in
  let finished :=
    run (finish_authenticate sid nickname (recent 50 (Messages s))) sent.1 in
  Messages finished.1 = Messages s ++ [m]
  ∧ received sid (sent.2 ++ finished.2)
    = [new_message m;
       message_history (reverse (recent 50 (Messages s)));
       authenticated nickname; user_joined nickname]
  ∧ foldl on_server_event [] (received sid (sent.2 ++ finished.2))
    = reverse (recent 50 (Messages s))
  ∧ m ∉ foldl on_server_event [] (received sid (sent.2 ++ finished.2)).
Proof.
  intros Hsid Hk Hu Ha Hnew. cbn zeta.
  rewrite (step_send_accepted _ _ _ _ _ _ _ _ Hk Hu Ha). cbn [fst snd].
  apply elem_of_dom in Hsid.
  assert (Hrecv :
    received sid
      ([MessageSaved m; Emit (dom (sockets s)) (new_message m)]
       ++ (run (finish_authenticate sid nickname (recent 50 (Messages s)))
             (with_Messages (λ l, l ++ [m]) s)).2)
    = [new_message m;
       message_history (reverse (recent 50 (Messages s)));
       authenticated nickname; user_joined nickname]).
  { unfold finish_authenticate. exec. unfold received. cbn.
    by rewrite !decide_True by set_solver. }
  rewrite Hrecv. split; [|split; [done|split; [done|]]].
  - unfold finish_authenticate. by exec.
  - cbn. intros Hin. by apply history_subset in Hin.
Qed.

End Awaits.

Lemma close_during_await_leaves_stale_entry_witness :
  sockets Demo.lobby !! "s3" = None
  ∧ connectedUsers (run (resume_authenticate (Demo.at_ 30 "") "s3"
                           (mkClaims "b2" "bob")) Demo.lobby).1 !! "s3"
    = Some "b2"
  ∧ received "s1" (run (resume_authenticate (Demo.at_ 30 "") "s3"
                          (mkClaims "b2" "bob")) Demo.lobby).2
    = [user_joined "bob"].
Proof.
  assert (Hs3 : sockets Demo.lobby !! "s3" = None) by by vm_compute.
  destruct (close_during_await_leaves_stale_entry Demo.jwt (Demo.at_ 30 "")
              "s3" (mkClaims "b2" "bob") Demo.bob Demo.lobby Hs3 eq_refl
              lobby_users_bob eq_refl eq_refl)
    as (_ & Hreg & _ & Hothers & _).
  split; [exact Hs3|]. split.
  - rewrite Hreg. apply lookup_insert_eq.
  - apply Hothers. rewrite lobby_s1. eauto.
Defined.

Lemma message_during_history_query_is_lost_witness :
  foldl on_server_event []
    (received "s2"
       ((step Demo.jwt (Demo.at_ 30 "m9") (send_message "s1" (Demo.say "hi"))
           Demo.lobby).2
        ++ (run (finish_authenticate "s2" "bob" (recent 50 (Messages Demo.lobby)))
              (step Demo.jwt (Demo.at_ 30 "m9")
                 (send_message "s1" (Demo.say "hi")) Demo.lobby).1).2))
  = reverse (recent 50 (Messages Demo.lobby))
  ∧ Messages
      (run (finish_authenticate "s2" "bob" (recent 50 (Messages Demo.lobby)))
         (step Demo.jwt (Demo.at_ 30 "m9")
            (send_message "s1" (Demo.say "hi")) Demo.lobby).1).1
    = Messages Demo.lobby ++ [mkMessage "m9" "a1" "alice" "hi" 30].
Proof.
  destruct (message_during_history_query_is_lost Demo.jwt (Demo.at_ 30 "m9")
              "s2" "s1" _ "a1" (Demo.say "hi")
              (mkMessage "m9" "a1" "alice" "hi" 30) "bob" Demo.lobby
              ltac:(rewrite lobby_s2; eauto) lobby_s1 eq_refl eq_refl
              ltac:(vm_compute; apply not_elem_of_nil))
    as (Hstored & _ & Hview & _).
  split; [exact Hview|exact Hstored].
Defined.
